(** * Football Link Sprint: the gameplay core

    A shallow embedding of the session logic of [App.tsx] and
    [GameScreen.tsx] and of the two clients of the language-model backend
    ([services/geminiService.ts]): the answer normaliser, the validation
    client, the generation client and the model-fallback helper. *)

From Stdlib Require Import String Ascii ZArith NArith QArith List Bool Lia.
Import ListNotations.
Local Open Scope Z_scope.

(** ** JavaScript strings

    A JavaScript string is a sequence of UTF-16 code units; [length],
    [includes], [slice] and regular expressions without the [u] flag all
    work on code units. *)

Module Js.

Definition code_unit := N.
Definition jsstring := list code_unit.

(** A literal made of Basic Latin characters. *)
Definition lit (s : string) : jsstring :=
  List.map N_of_ascii (list_ascii_of_string s).

Definition eqb (s t : jsstring) : bool :=
  if list_eq_dec N.eq_dec s t then true else false.

(** [WhiteSpace] and [LineTerminator] of ECMA-262, the code units that
    [String.prototype.trim] removes. *)
Definition isWhiteSpace (c : code_unit) : bool :=
  existsb (N.eqb c)
    [0x9; 0xA; 0xB; 0xC; 0xD; 0x20; 0xA0; 0x1680; 0x2028; 0x2029;
     0x202F; 0x205F; 0x3000; 0xFEFF]%N
  || ((0x2000 <=? c) && (c <=? 0x200A))%N.

Fixpoint trimStart (s : jsstring) : jsstring :=
  match s with
  | [] => []
  | c :: s' => if isWhiteSpace c then trimStart s' else s
  end.

Definition trimEnd (s : jsstring) : jsstring := rev (trimStart (rev s)).

Definition trim (s : jsstring) : jsstring := trimEnd (trimStart s).

(** [s.startsWith(p)] *)
Fixpoint startsWith (s p : jsstring) : bool :=
  match p, s with
  | [], _ => true
  | _ :: _, [] => false
  | c :: p', d :: s' => N.eqb c d && startsWith s' p'
  end.

(** [s.includes(p)]: [p] occurs in [s] as a contiguous run of code units. *)
Fixpoint includes (s p : jsstring) : bool :=
  startsWith s p ||
  match s with
  | [] => false
  | _ :: s' => includes s' p
  end.

(** [l.join(sep)] for an array of strings. *)
Fixpoint join (sep : jsstring) (l : list jsstring) : jsstring :=
  match l with
  | [] => []
  | [s] => s
  | s :: l' => s ++ sep ++ join sep l'
  end.

(** [l.slice(-n)]: the last [n] elements, the whole array when it has
    fewer. *)
Definition slice_last {A} (n : nat) (l : list A) : list A :=
  skipn (length l - n) l.

(** [s.replace(/[...]/g, r)] for a class of single code units and a
    replacement [r] of one code unit. *)
Definition replaceClass (cls : code_unit -> bool) (r : code_unit)
  (s : jsstring) : jsstring :=
  List.map (fun c => if cls c then r else c) s.

(** [s.replace(/[...]/g, '')] *)
Definition removeClass (cls : code_unit -> bool) (s : jsstring) : jsstring :=
  filter (fun c => negb (cls c)) s.

(** [s.replace(/^(p)/, '')]: the anchored pattern matches at most once, at
    the start. *)
Definition removePrefix (p s : jsstring) : jsstring :=
  if startsWith s p then skipn (length p) s else s.

(** An instance of [String.prototype.toLowerCase] for strings of the Basic
    Latin and Arabic blocks: [A]-[Z] are folded, every other code unit of
    these blocks has no case. *)
Definition isUpperBasic (c : code_unit) : bool :=
  ((0x41 <=? c) && (c <=? 0x5A))%N.

Definition lowerBasic (s : jsstring) : jsstring :=
  List.map (fun c => if isUpperBasic c then (c + 0x20)%N else c) s.

End Js.

Import Js.

(** ** The letters of the answer normaliser *)

Definition ALEF : code_unit := 0x627%N.
Definition LAM : code_unit := 0x644%N.
Definition HEH : code_unit := 0x647%N.
Definition YEH : code_unit := 0x64A%N.

(** [/[أإآ]/]: alef with hamza above, with hamza below, with madda. *)
Definition isAlefVariant (c : code_unit) : bool :=
  existsb (N.eqb c) [0x623; 0x625; 0x622]%N.

(** [/ة/]: teh marbuta. *)
Definition isTehMarbuta (c : code_unit) : bool := N.eqb c 0x629%N.

(** [/ى/]: alef maksura. *)
Definition isAlefMaksura (c : code_unit) : bool := N.eqb c 0x649%N.

(** [/[\u064B-\u065F]/]: the combining marks, fathatan to U+065F. *)
Definition isTashkeel (c : code_unit) : bool :=
  ((0x64B <=? c) && (c <=? 0x65F))%N.

(** The definite article [ال]. *)
Definition AL : jsstring := [ALEF; LAM].

(** ** Values at the backend boundary *)

(** An exception value, as far as the code looks at it: the text of
    [error.toString()] and the [status] property when it is a number. *)
Record JsError := mkError { err_text : jsstring; err_status : option Z }.

(** What [JSON.parse] returns, the [any] of [generateWithFallback]. *)
#[local] Set Warnings "-register-all".
Inductive JsVal :=
| VUndefined
| VNull
| VBool (b : bool)
| VNum (q : Q)
| VStr (s : jsstring)
| VArr (l : list JsVal)
| VObj (fields : list (jsstring * JsVal)).

(** Truthiness, as in [if (result.isValid)] and [a || b]. *)
Definition truthy (v : JsVal) : bool :=
  match v with
  | VUndefined | VNull => false
  | VBool b => b
  | VNum q => negb (Qeq_bool q 0)
  | VStr s => negb (Js.eqb s [])
  | VArr _ | VObj _ => true
  end.

Fixpoint assoc (key : jsstring) (fields : list (jsstring * JsVal)) : JsVal :=
  match fields with
  | [] => VUndefined
  | (k, v) :: rest => if Js.eqb k key then v else assoc key rest
  end.

(** The exception of a property read on [undefined] or [null]; only its
    being thrown matters to the callers, none inspects it. *)
Definition TypeError (key : jsstring) : JsError :=
  mkError (lit "TypeError: Cannot read properties of undefined (reading '"
           ++ key ++ lit "')") None.

(** [v.key] for the keys of the two schemas: they are own properties of
    objects only. *)
Definition get (v : JsVal) (key : jsstring) : JsError + JsVal :=
  match v with
  | VUndefined | VNull => inl (TypeError key)
  | VObj fields => inr (assoc key fields)
  | _ => inr VUndefined
  end.

(** ** Data model ([types.ts]) *)

Inductive EntityType := TEAM | PLAYER | COACH | TROPHY | NATIONAL_TEAM | YEAR.

Inductive Difficulty := EASY | MEDIUM | HARD.

Record GameEntity := mkEntity {
  name : jsstring;
  type : EntityType;
  description : option jsstring;
  imageUrl : option jsstring;
  color : option jsstring
}.

Record Challenge := mkChallenge {
  id : jsstring;
  cardA : GameEntity;
  cardB : GameEntity;
  possibleAnswers : option (list jsstring)
}.

Inductive GameStatus := IDLE | LOADING_CHALLENGE | PLAYING | VALIDATING | GAME_OVER.

Record HistoryEntry := mkHistory {
  question : jsstring;
  answer : jsstring;
  isCorrect : bool
}.

Record GameState := mkGameState {
  status : GameStatus;
  score : Z;
  timeLeft : Z;
  currentChallenge : option Challenge;
  message : option jsstring;
  difficulty : Difficulty;
  history : list HistoryEntry;
  seenEntities : list jsstring
}.

(** The string values of the [EntityType] enum. *)
Definition EntityType_values : list (jsstring * EntityType) :=
  [(lit "TEAM", TEAM); (lit "PLAYER", PLAYER); (lit "COACH", COACH);
   (lit "TROPHY", TROPHY); (lit "NATIONAL_TEAM", NATIONAL_TEAM);
   (lit "YEAR", YEAR)].

(** ** Effects of the service module

    A program of the service module is a tree of the calls it makes to its
    environment: the backend ([ai.models.generateContent]), timers, the
    console, [Math.random] and [crypto.randomUUID].  [IllTyped] ends a run
    in which a value of the backend does not have the TypeScript type it is
    cast to; such runs are outside this embedding. *)

Inductive Schema := challengeSchema | validationSchema.

Record Request := mkRequest {
  model : jsstring;
  contents : jsstring;
  responseMimeType : jsstring;
  responseSchema : Schema;
  temperature : Q
}.

(** The awaited [generateContent]: it rejects, or resolves to a response
    whose [text] is a string or undefined. *)
Inductive Reply :=
| Rejected (e : JsError)
| Response (text : option jsstring).

Inductive prog (A : Type) : Type :=
| Ret (a : A)
| Throw (e : JsError)
| IllTyped
| GenerateContent (rq : Request) (k : Reply -> prog A)
| Sleep (ms : Z) (k : prog A)
| Console (k : prog A)
| RandomIndex (n : nat) (k : nat -> prog A)
| RandomUUID (k : jsstring -> prog A).

Arguments Ret {A} a.
Arguments Throw {A} e.
Arguments IllTyped {A}.
Arguments GenerateContent {A} rq k.
Arguments Sleep {A} ms k.
Arguments Console {A} k.
Arguments RandomIndex {A} n k.
Arguments RandomUUID {A} k.

Fixpoint bind {A B} (p : prog A) (f : A -> prog B) : prog B :=
  match p with
  | Ret a => f a
  | Throw e => Throw e
  | IllTyped => IllTyped
  | GenerateContent rq k => GenerateContent rq (fun r => bind (k r) f)
  | Sleep ms k => Sleep ms (bind k f)
  | Console k => Console (bind k f)
  | RandomIndex n k => RandomIndex n (fun i => bind (k i) f)
  | RandomUUID k => RandomUUID (fun u => bind (k u) f)
  end.

(** [try { p } catch (e) { h e }] *)
Fixpoint try_catch {A} (p : prog A) (h : JsError -> prog A) : prog A :=
  match p with
  | Ret a => Ret a
  | Throw e => h e
  | IllTyped => IllTyped
  | GenerateContent rq k => GenerateContent rq (fun r => try_catch (k r) h)
  | Sleep ms k => Sleep ms (try_catch k h)
  | Console k => Console (try_catch k h)
  | RandomIndex n k => RandomIndex n (fun i => try_catch (k i) h)
  | RandomUUID k => RandomUUID (fun u => try_catch (k u) h)
  end.

Notation "x <- p ;; q" := (bind p (fun x => q))
  (at level 61, p at next level, right associativity).

(** A value or the exception of computing it. *)
Definition lift {A} (r : JsError + A) : prog A :=
  match r with
  | inl e => Throw e
  | inr a => Ret a
  end.

(** [await ai.models.generateContent(rq)] *)
Definition generateContent (rq : Request) : prog (option jsstring) :=
  GenerateContent rq (fun r =>
    match r with
    | Rejected e => Throw e
    | Response text => Ret text
    end).

(** *** Running a program against an environment *)

(** The environment answers the [t]-th call of a run. *)
Record Env := mkEnv {
  backend : nat -> Request -> Reply;
  random : nat -> nat;
  uuid : nat -> jsstring
}.

Inductive Event :=
| EvGenerateContent (rq : Request) (r : Reply)
| EvSleep (ms : Z)
| EvConsole
| EvRandom (n i : nat)
| EvUUID (u : jsstring).

Inductive Outcome (A : Type) : Type :=
| Returned (a : A)
| Thrown (e : JsError)
| Untyped.

Arguments Returned {A} a.
Arguments Thrown {A} e.
Arguments Untyped {A}.

Fixpoint run {A} (env : Env) (t : nat) (p : prog A) : list Event * Outcome A :=
  match p with
  | Ret a => ([], Returned a)
  | Throw e => ([], Thrown e)
  | IllTyped => ([], Untyped)
  | GenerateContent rq k =>
      let r := backend env t rq in
      let '(tr, o) := run env (S t) (k r) in (EvGenerateContent rq r :: tr, o)
  | Sleep ms k =>
      let '(tr, o) := run env (S t) k in (EvSleep ms :: tr, o)
  | Console k =>
      let '(tr, o) := run env (S t) k in (EvConsole :: tr, o)
  | RandomIndex n k =>
      let i := Nat.modulo (random env t) n in
      let '(tr, o) := run env (S t) (k i) in (EvRandom n i :: tr, o)
  | RandomUUID k =>
      let u := uuid env t in
      let '(tr, o) := run env (S t) (k u) in (EvUUID u :: tr, o)
  end.

(** The requests sent to the backend in a trace, in order. *)
Fixpoint requests (tr : list Event) : list Request :=
  match tr with
  | [] => []
  | EvGenerateContent rq _ :: tr' => rq :: requests tr'
  | _ :: tr' => requests tr'
  end.

(** ** The service module ([services/geminiService.ts]) *)

Definition NL : jsstring := [0xA%N].
Definition DQ : jsstring := [0x22%N].

Definition PRIMARY_MODEL : jsstring := lit "gemini-2.5-flash".
Definition FALLBACK_MODEL : jsstring := lit "gemini-flash-lite-latest".

Definition THEMES : list jsstring :=
  [lit "History: Legends of the 90s and 2000s";
   lit "Modern: Current stars (2020-2025)";
   lit "Tactical: Coach and Player relationships";
   lit "International: World Cups, Euros";
   lit "Transfers: Players who moved between big clubs";
   lit "Underdogs: Notable players from teams like Dortmund, Atletico";
   lit "Premier League Focus";
   lit "Serie A & La Liga giants";
   lit "Managers: Famous coaches and their key players";
   lit "Silverware: Winners of UCL, World Cup, Ballon d'Or";
   lit "National Duty: National team achievements"].

Definition STRUCTURES : list jsstring :=
  [lit "Entity A: TEAM, Entity B: PLAYER";
   lit "Entity A: COACH, Entity B: TEAM";
   lit "Entity A: TROPHY, Entity B: PLAYER";
   lit "Entity A: NATIONAL_TEAM, Entity B: COACH";
   lit "Entity A: PLAYER, Entity B: PLAYER";
   lit "Entity A: TEAM, Entity B: TEAM";
   lit "Entity A: TROPHY, Entity B: TEAM";
   lit "Entity A: COACH, Entity B: PLAYER";
   lit "Entity A: NATIONAL_TEAM, Entity B: TEAM"].

(** [error.toString().includes("429") || (error.status === 429)] *)
Definition isQuotaError (error : JsError) : bool :=
  includes (err_text error) (lit "429")
  || match err_status error with
     | Some st => Z.eqb st 429
     | None => false
     end.

(** The value of [lastError] when the loop has caught nothing: it is thrown
    only if [modelsToTry] is empty. *)
Definition undefinedError : JsError := mkError (lit "undefined") None.

(** The result of [validateAnswer]; the remote tier fills it with whatever
    the backend sent. *)
Record ValidationResult := mkResult {
  isValid : JsVal;
  reason : JsVal;
  correctAnswer : JsVal
}.

(** "إجابة صحيحة!" *)
Definition reason_correct : jsstring :=
  [1573; 1580; 1575; 1576; 1577; 32; 1589; 1581; 1610; 1581; 1577; 33]%N.

(** "عذراً، الخدمة مشغولة جداً. حاول مرة أخرى." *)
Definition reason_busy : jsstring :=
  [1593; 1584; 1585; 1575; 1611; 1548; 32; 1575; 1604; 1582; 1583; 1605;
   1577; 32; 1605; 1588; 1594; 1608; 1604; 1577; 32; 1580; 1583; 1575;
   1611; 46; 32; 1581; 1575; 1608; 1604; 32; 1605; 1585; 1577; 32; 1571;
   1582; 1585; 1609; 46]%N.

Definition difficultyContext (d : Difficulty) : jsstring :=
  match d with
  | EASY => lit "DIFFICULTY: EASY. Use ONLY extremely famous global superstars."
  | HARD => lit "DIFFICULTY: HARD. Use deeper cuts, mid-table teams, or historical players."
  | MEDIUM => lit "DIFFICULTY: MEDIUM. Use well-known players, coaches, and teams."
  end.

(** The text of the generation prompt before and after the exclusion
    list. *)
Definition challengePrompt_head (randomTheme randomStructure : jsstring)
  (d : Difficulty) : jsstring :=
  NL ++ lit "    Generate a challenging but solvable football connection puzzle."
  ++ NL ++ lit "    THEME: " ++ randomTheme
  ++ NL ++ lit "    REQUIRED STRUCTURE: " ++ randomStructure
  ++ NL ++ lit "    " ++ difficultyContext d
  ++ NL ++ lit "    "
  ++ NL ++ lit "    Constraints:"
  ++ NL ++ lit "    1. Output in ARABIC."
  ++ NL ++ lit "    2. Connection must be factual."
  ++ NL ++ lit "    3. Exclude: [".

Definition challengePrompt_tail : jsstring :=
  lit "]."
  ++ NL ++ lit "    4. VARIETY: Use Coaches, Trophies, National Teams."
  ++ NL ++ lit "    5. IMAGES: Must be valid Wikimedia Commons HTTPS URLs (jpg/png) for Logos, Faces, Trophies."
  ++ NL ++ lit "    "
  ++ NL ++ lit "    The concept is: Find a Player who connects Card A and Card B."
  ++ NL ++ lit "  ".

Definition challengePrompt (randomTheme randomStructure : jsstring)
  (d : Difficulty) (excludeEntities : list jsstring) : jsstring :=
  let recentExclusions := join (lit ", ") (slice_last 20 excludeEntities) in
  challengePrompt_head randomTheme randomStructure d
  ++ recentExclusions ++ challengePrompt_tail.

Definition validationPrompt (cardA cardB userAnswer : jsstring) : jsstring :=
  NL ++ lit "    Context: Football trivia."
  ++ NL ++ lit "    Question: Connect " ++ DQ ++ cardA ++ DQ
  ++ lit " and " ++ DQ ++ cardB ++ DQ ++ lit "."
  ++ NL ++ lit "    User Answer: " ++ DQ ++ userAnswer ++ DQ ++ lit "."
  ++ NL ++ lit "    Verify if correct. Output in Arabic."
  ++ NL ++ lit "  ".

(** The casts of [generateChallenge] to the fields of [Challenge]. *)
Definition as_string (v : JsVal) : prog jsstring :=
  match v with
  | VStr s => Ret s
  | _ => IllTyped
  end.

Definition as_optional_string (v : JsVal) : prog (option jsstring) :=
  match v with
  | VStr s => Ret (Some s)
  | VUndefined => Ret None
  | _ => IllTyped
  end.

Fixpoint lookup_enum (s : jsstring) (l : list (jsstring * EntityType))
  : option EntityType :=
  match l with
  | [] => None
  | (k, v) :: rest => if Js.eqb k s then Some v else lookup_enum s rest
  end.

Definition as_EntityType (v : JsVal) : prog EntityType :=
  match v with
  | VStr s =>
      match lookup_enum s EntityType_values with
      | Some t => Ret t
      | None => IllTyped
      end
  | _ => IllTyped
  end.

Fixpoint all_strings (l : list JsVal) : option (list jsstring) :=
  match l with
  | [] => Some []
  | VStr s :: rest => option_map (cons s) (all_strings rest)
  | _ :: _ => None
  end.

Definition as_optional_strings (v : JsVal) : prog (option (list jsstring)) :=
  match v with
  | VUndefined => Ret None
  | VArr l =>
      match all_strings l with
      | Some ss => Ret (Some ss)
      | None => IllTyped
      end
  | _ => IllTyped
  end.

Section Service.

(** [String.prototype.toLowerCase] and [JSON.parse] of the JavaScript
    runtime. *)
Variable toLowerCase : jsstring -> jsstring.
Variable JSON_parse : jsstring -> JsError + JsVal.

Definition normalizeArabic (text : jsstring) : jsstring :=
  match text with
  | [] => []
  | _ =>
    removePrefix AL
      (removeClass isTashkeel
        (replaceClass isAlefMaksura YEH
          (replaceClass isTehMarbuta HEH
            (replaceClass isAlefVariant ALEF
              (toLowerCase (trim text))))))
  end.

(** One turn of the loop of [generateWithFallback] and the turns after it;
    [lastError] is the error caught by the turn before. *)
Fixpoint tryModels (prompt : jsstring) (schema : Schema) (temp : Q)
  (modelsToTry : list jsstring) (lastError : option JsError) : prog JsVal :=
  match modelsToTry with
  | [] =>
      match lastError with
      | Some e => Throw e
      | None => Throw undefinedError
      end
  | model :: rest =>
      try_catch
        (text <- generateContent
                   (mkRequest model prompt (lit "application/json") schema temp) ;;
         lift (JSON_parse
                 (match text with
                  | Some ((_ :: _) as t) => t
                  | _ => lit "{}"
                  end)))
        (fun error =>
           if negb (isQuotaError error) then Throw error
           else Console (Sleep 1000 (tryModels prompt schema temp rest (Some error))))
  end.

Definition generateWithFallback (prompt : jsstring) (schema : Schema)
  (temp : Q) : prog JsVal :=
  tryModels prompt schema temp [PRIMARY_MODEL; FALLBACK_MODEL] None.

(** [{ name: d.name, type: d.type as EntityType, imageUrl: d.imageUrl,
      color: d.color }] for [d] one of [data.cardA] and [data.cardB]. *)
Definition readEntity (data : JsVal) (card : jsstring) : prog GameEntity :=
  n <- (c <- lift (get data card) ;; v <- lift (get c (lit "name")) ;; as_string v) ;;
  t <- (c <- lift (get data card) ;; v <- lift (get c (lit "type")) ;; as_EntityType v) ;;
  i <- (c <- lift (get data card) ;; v <- lift (get c (lit "imageUrl")) ;; as_optional_string v) ;;
  k <- (c <- lift (get data card) ;; v <- lift (get c (lit "color")) ;; as_optional_string v) ;;
  Ret (mkEntity n t None i k).

Definition generateChallenge (difficulty : Difficulty)
  (excludeEntities : list jsstring) : prog Challenge :=
  RandomIndex (length THEMES) (fun i =>
  RandomIndex (length STRUCTURES) (fun j =>
    let randomTheme := nth i THEMES [] in
    let randomStructure := nth j STRUCTURES [] in
    let prompt := challengePrompt randomTheme randomStructure difficulty excludeEntities in
    data <- generateWithFallback prompt challengeSchema (11 # 10) ;;
    RandomUUID (fun u =>
      a <- readEntity data (lit "cardA") ;;
      b <- readEntity data (lit "cardB") ;;
      p <- (v <- lift (get data (lit "possibleSolutions")) ;; as_optional_strings v) ;;
      Ret (mkChallenge u a b p)))).

(** The test of the local tier on one accepted answer. *)
Definition localMatch (normalizedInput ans : jsstring) : bool :=
  let normAns := normalizeArabic ans in
  Js.eqb normAns normalizedInput
  || ((3 <? length normAns)%nat && includes normalizedInput normAns)
  || ((3 <? length normalizedInput)%nat && includes normAns normalizedInput).

Definition validateAnswer (cardA cardB userAnswer : jsstring)
  (possibleAnswers : list jsstring) : prog ValidationResult :=
  let remote :=
    let prompt := validationPrompt cardA cardB userAnswer in
    try_catch
      (data <- generateWithFallback prompt validationSchema (2 # 10) ;;
       v <- lift (get data (lit "isValid")) ;;
       r <- lift (get data (lit "reason")) ;;
       c <- lift (get data (lit "correctAnswer")) ;;
       Ret (mkResult v r c))
      (fun error =>
         Console
           (Ret (mkResult (VBool false) (VStr reason_busy) VUndefined))) in
  if (0 <? length possibleAnswers)%nat then
    let normalizedInput := normalizeArabic userAnswer in
    let isMatch := existsb (localMatch normalizedInput) possibleAnswers in
    if isMatch
    then Ret (mkResult (VBool true) (VStr reason_correct) VUndefined)
    else remote
  else remote.

End Service.

(** ** The session ([App.tsx]) and the game screen ([GameScreen.tsx]) *)

Definition TIME_LIMITS (d : Difficulty) : Z :=
  match d with
  | EASY => 90
  | MEDIUM => 60
  | HARD => 45
  end.

(** "الخوادم مشغولة حالياً أو انتهت حصة الاستخدام. يرجى المحاولة لاحقاً." *)
Definition error_start : jsstring :=
  [1575; 1604; 1582; 1608; 1575; 1583; 1605; 32; 1605; 1588; 1594; 1608;
   1604; 1577; 32; 1581; 1575; 1604; 1610; 1575; 1611; 32; 1571; 1608; 32;
   1575; 1606; 1578; 1607; 1578; 32; 1581; 1589; 1577; 32; 1575; 1604;
   1575; 1587; 1578; 1582; 1583; 1575; 1605; 46; 32; 1610; 1585; 1580;
   1609; 32; 1575; 1604; 1605; 1581; 1575; 1608; 1604; 1577; 32; 1604;
   1575; 1581; 1602; 1575; 1611; 46]%N.

(** "حدث خطأ أثناء تحميل السؤال التالي." *)
Definition error_next : jsstring :=
  [1581; 1583; 1579; 32; 1582; 1591; 1571; 32; 1571; 1579; 1606; 1575;
   1569; 32; 1578; 1581; 1605; 1610; 1604; 32; 1575; 1604; 1587; 1572;
   1575; 1604; 32; 1575; 1604; 1578; 1575; 1604; 1610; 46]%N.

(** "إجابة صحيحة! +10 ثواني" *)
Definition feedback_correct : jsstring :=
  [1573; 1580; 1575; 1576; 1577; 32; 1589; 1581; 1610; 1581; 1577; 33; 32;
   43; 49; 48; 32; 1579; 1608; 1575; 1606; 1610]%N.

(** "إجابة خاطئة، حاول مرة أخرى" *)
Definition feedback_wrong : jsstring :=
  [1573; 1580; 1575; 1576; 1577; 32; 1582; 1575; 1591; 1574; 1577; 1548;
   32; 1581; 1575; 1608; 1604; 32; 1605; 1585; 1577; 32; 1571; 1582; 1585;
   1609]%N.

Definition GameStatus_eqb (a b : GameStatus) : bool :=
  match a, b with
  | IDLE, IDLE | LOADING_CHALLENGE, LOADING_CHALLENGE | PLAYING, PLAYING
  | VALIDATING, VALIDATING | GAME_OVER, GAME_OVER => true
  | _, _ => false
  end.

(** *** The updaters passed to [setGameState] *)

(** The initial value of [useState<GameState>]. *)
Definition initialGameState : GameState :=
  mkGameState IDLE 0 (TIME_LIMITS MEDIUM) None None MEDIUM [] [].

(** The updater of the interval callback of the timer effect. *)
Definition tick (prev : GameState) : GameState :=
  if timeLeft prev <=? 1 then
    mkGameState GAME_OVER (score prev) 0 (currentChallenge prev)
      (message prev) (difficulty prev) (history prev) (seenEntities prev)
  else
    mkGameState (status prev) (score prev) (timeLeft prev - 1)
      (currentChallenge prev) (message prev) (difficulty prev)
      (history prev) (seenEntities prev).

(** The condition under which the timer effect installs the interval. *)
Definition timerRuns (g : GameState) : bool :=
  GameStatus_eqb (status g) PLAYING && (0 <? timeLeft g).

(** [{ ...prev, status: st }] *)
Definition withStatus (st : GameStatus) (prev : GameState) : GameState :=
  mkGameState st (score prev) (timeLeft prev) (currentChallenge prev)
    (message prev) (difficulty prev) (history prev) (seenEntities prev).

(** The first updater of [startGame]. *)
Definition startGame_reset (prev : GameState) : GameState :=
  mkGameState LOADING_CHALLENGE 0 (TIME_LIMITS (difficulty prev))
    (currentChallenge prev) (message prev) (difficulty prev) [] [].

(** The updater of [startGame] once the challenge has arrived. *)
Definition startGame_loaded (challenge : Challenge) (prev : GameState)
  : GameState :=
  let newSeen := [name (cardA challenge); name (cardB challenge)] in
  mkGameState PLAYING (score prev) (timeLeft prev) (Some challenge)
    (message prev) (difficulty prev) (history prev) newSeen.

(** The first updater of [handleNextRound]. *)
Definition handleNextRound_advance (bonusTime : Z) (prev : GameState)
  : GameState :=
  mkGameState LOADING_CHALLENGE
    (if 0 <? bonusTime then score prev + 1 else score prev)
    (timeLeft prev + bonusTime)
    (currentChallenge prev) (message prev) (difficulty prev)
    (history prev) (seenEntities prev).

(** The updater of [handleNextRound] once the challenge has arrived. *)
Definition handleNextRound_loaded (challenge : Challenge) (prev : GameState)
  : GameState :=
  mkGameState PLAYING (score prev) (timeLeft prev) (Some challenge)
    (message prev) (difficulty prev) (history prev)
    (seenEntities prev ++ [name (cardA challenge); name (cardB challenge)]).

(** The updater of [setDifficulty]. *)
Definition setDifficulty (level : Difficulty) (prev : GameState) : GameState :=
  mkGameState (status prev) (score prev) (timeLeft prev)
    (currentChallenge prev) (message prev) level (history prev)
    (seenEntities prev).

(** *** Component state *)

(** The four [useState] cells of [App]. *)
Record App := mkApp {
  gameState : GameState;
  highScore : Z;
  error : option jsstring;
  isValidating : bool
}.

Inductive FeedbackType := success | failure.

Record Feedback := mkFeedback {
  fb_type : option FeedbackType;
  fb_message : JsVal
}.

Definition noFeedback : Feedback := mkFeedback None (VStr []).

(** The [useState] cells of one mounted [GameScreen]; [instance] tells
    the mounted instances apart. *)
Record Screen := mkScreen {
  instance : nat;
  input : jsstring;
  validating : bool;
  feedback : Feedback
}.

(** An asynchronous function of the components suspended at an [await] or
    a timer of theirs that has not fired.  The handlers of [GameScreen]
    keep the instance they belong to and the [gameState] of the render
    that created them: it fixes the props [challenge] and [onNextRound]. *)
Inductive Task :=
| AwaitStart
| AwaitNext
| AwaitValidation (inst : nat) (props : GameState)
| AwaitDelay (inst : nat) (props : GameState).

Record World := mkWorld {
  app : App;
  screen : option Screen;
  tasks : list Task;
  mounts : nat
}.

(** The calls into the service module made by a handler. *)
Inductive Call :=
| CallGenerateChallenge (d : Difficulty) (excludeEntities : list jsstring)
| CallValidateAnswer (cardA cardB userAnswer : jsstring)
    (possibleAnswers : list jsstring).

Definition initialWorld : World :=
  mkWorld (mkApp initialGameState 0 None false) None [] 0.

(** [showLoading]: the loading overlay covers the whole viewport. *)
Definition showLoading (a : App) : bool :=
  GameStatus_eqb (status (gameState a)) LOADING_CHALLENGE || isValidating a.

(** [GameScreen] is rendered when
    [status === PLAYING && gameState.currentChallenge]. *)
Definition showsGameScreen (g : GameState) : bool :=
  GameStatus_eqb (status g) PLAYING
  && match currentChallenge g with Some _ => true | None => false end.

(** Rendering after an update of [App]: [GameScreen] is mounted with fresh
    state, kept, or unmounted. *)
Definition render (a : App) (tk : list Task) (w : World) : World :=
  if showsGameScreen (gameState a) then
    match screen w with
    | Some sc => mkWorld a (Some sc) tk (mounts w)
    | None =>
        mkWorld a (Some (mkScreen (mounts w) [] false noFeedback)) tk
          (S (mounts w))
    end
  else mkWorld a None tk (mounts w).

(** A [setState] of a [GameScreen] instance: it has no effect once the
    instance is unmounted. *)
Definition onScreen (inst : nat) (f : Screen -> Screen) (w : World) : World :=
  match screen w with
  | Some sc =>
      if Nat.eqb (instance sc) inst
      then mkWorld (app w) (Some (f sc)) (tasks w) (mounts w)
      else w
  | None => w
  end.

Fixpoint removeNth {A} (i : nat) (l : list A) : list A :=
  match i, l with
  | _, [] => []
  | O, _ :: l' => l'
  | S i', x :: l' => x :: removeNth i' l'
  end.

(** [handleNextRound(bonusTime)] up to its [await]; [props] is the
    [gameState] its closure was created with. *)
Definition handleNextRound (props : GameState) (bonusTime : Z) (w : World)
  : World * list Call :=
  let a := app w in
  (render
     (mkApp (handleNextRound_advance bonusTime (gameState a)) (highScore a)
        None (isValidating a))
     (tasks w ++ [AwaitNext]) w,
   [CallGenerateChallenge (difficulty props) (seenEntities props)]).

(** [startGame()] up to its [await]. *)
Definition startGame (w : World) : World * list Call :=
  let a := app w in
  (render
     (mkApp (startGame_reset (gameState a)) (highScore a) None
        (isValidating a))
     (tasks w ++ [AwaitStart]) w,
   [CallGenerateChallenge (difficulty (gameState a)) []]).

(** [resetGame()] *)
Definition resetGame (w : World) : World :=
  let a := app w in
  render
    (mkApp (withStatus IDLE (gameState a))
       (if highScore a <? score (gameState a) then score (gameState a)
        else highScore a)
       None (isValidating a))
    (tasks w) w.

(** [handleSubmit(e)] up to its [await]; [challenge] is the prop of the
    render the handler belongs to. *)
Definition handleSubmit (sc : Screen) (challenge : Challenge) (w : World)
  : World * list Call :=
  if Js.eqb (trim (input sc)) [] || validating sc then (w, [])
  else
    let a := app w in
    (mkWorld
       (mkApp (gameState a) (highScore a) (error a) true)
       (Some (mkScreen (instance sc) (input sc) true noFeedback))
       (tasks w ++ [AwaitValidation (instance sc) (gameState a)])
       (mounts w),
     [CallValidateAnswer (name (cardA challenge)) (name (cardB challenge))
        (input sc)
        (match possibleAnswers challenge with
         | Some l => l
         | None => []
         end)]).

(** [handleSkip()] *)
Definition handleSkip (sc : Screen) (w : World) : World * list Call :=
  let '(w1, calls) := handleNextRound (gameState (app w)) 0 w in
  (onScreen (instance sc)
     (fun s => mkScreen (instance s) [] (validating s) noFeedback) w1,
   calls).

(** *** Events *)

Inductive Input :=
| Tick
| ClickStart
| ClickMenu
| ClickDifficulty (level : Difficulty)
| Change (text : jsstring)
| Submit
| ClickSkip
| Generated (i : nat) (r : JsError + Challenge)
| Validated (i : nat) (r : ValidationResult)
| DelayElapsed (i : nat).

(** [startGame] after its [await], with the outcome of
    [generateChallenge]. *)
Definition startGame_resume (r : JsError + Challenge) (tk : list Task)
  (w : World) : World :=
  let a := app w in
  match r with
  | inr challenge =>
      render
        (mkApp (startGame_loaded challenge (gameState a)) (highScore a)
           (error a) (isValidating a))
        tk w
  | inl e =>
      render
        (mkApp (withStatus IDLE (gameState a)) (highScore a)
           (Some error_start) (isValidating a))
        tk w
  end.

(** [handleNextRound] after its [await]. *)
Definition handleNextRound_resume (r : JsError + Challenge) (tk : list Task)
  (w : World) : World :=
  let a := app w in
  match r with
  | inr challenge =>
      render
        (mkApp (handleNextRound_loaded challenge (gameState a)) (highScore a)
           (error a) (isValidating a))
        tk w
  | inl e =>
      render
        (mkApp (withStatus GAME_OVER (gameState a)) (highScore a)
           (Some error_next) (isValidating a))
        tk w
  end.

(** [handleSubmit] after its [await], with the result of
    [validateAnswer]: the success branch arms the 1500 ms timer, the
    other one reports the reason and lets the player answer again. *)
Definition handleSubmit_resume (inst : nat) (props : GameState)
  (result : ValidationResult) (tk : list Task) (w : World) : World :=
  let a := app w in
  if truthy (isValid result) then
    onScreen inst
      (fun s =>
         mkScreen (instance s) (input s) (validating s)
           (mkFeedback (Some success) (VStr feedback_correct)))
      (mkWorld a (screen w) (tk ++ [AwaitDelay inst props]) (mounts w))
  else
    onScreen inst
      (fun s =>
         mkScreen (instance s) (input s) false
           (mkFeedback (Some failure)
              (if truthy (reason result) then reason result
               else VStr feedback_wrong)))
      (mkWorld (mkApp (gameState a) (highScore a) (error a) false)
         (screen w) tk (mounts w)).

(** The callback of the 1500 ms timer. *)
Definition delayElapsed (inst : nat) (props : GameState) (tk : list Task)
  (w : World) : World * list Call :=
  let a := app w in
  let w1 :=
    onScreen inst (fun s => mkScreen (instance s) [] false noFeedback)
      (mkWorld (mkApp (gameState a) (highScore a) (error a) false)
         (screen w) tk (mounts w)) in
  handleNextRound props 10 w1.

(** One event of the page.  A control is operated only while it is
    rendered, enabled and not covered by the loading overlay; the interval
    fires only while the timer effect has it installed; a suspended
    handler resumes at any time.  [None]: the event cannot happen. *)
Definition step (w : World) (ev : Input) : option (World * list Call) :=
  let a := app w in
  let g := gameState a in
  match ev with
  | Tick =>
      if timerRuns g then
        Some (render (mkApp (tick g) (highScore a) (error a) (isValidating a))
                (tasks w) w, [])
      else None
  | ClickStart =>
      if (GameStatus_eqb (status g) IDLE || GameStatus_eqb (status g) GAME_OVER)
         && negb (showLoading a)
      then Some (startGame w) else None
  | ClickMenu =>
      if GameStatus_eqb (status g) GAME_OVER && negb (showLoading a)
      then Some (resetGame w, []) else None
  | ClickDifficulty level =>
      if GameStatus_eqb (status g) IDLE && negb (showLoading a)
      then Some (render (mkApp (setDifficulty level g) (highScore a) (error a)
                           (isValidating a)) (tasks w) w, [])
      else None
  | Change text =>
      match screen w with
      | Some sc =>
          if validating sc then None
          else Some (mkWorld a
                       (Some (mkScreen (instance sc) text (validating sc)
                                (feedback sc)))
                       (tasks w) (mounts w), [])
      | None => None
      end
  | Submit =>
      match screen w, currentChallenge g with
      | Some sc, Some challenge => Some (handleSubmit sc challenge w)
      | _, _ => None
      end
  | ClickSkip =>
      match screen w with
      | Some sc =>
          if negb (validating sc) && negb (showLoading a)
          then Some (handleSkip sc w) else None
      | None => None
      end
  | Generated i r =>
      match nth_error (tasks w) i with
      | Some AwaitStart =>
          Some (startGame_resume r (removeNth i (tasks w)) w, [])
      | Some AwaitNext =>
          Some (handleNextRound_resume r (removeNth i (tasks w)) w, [])
      | _ => None
      end
  | Validated i r =>
      match nth_error (tasks w) i with
      | Some (AwaitValidation inst props) =>
          Some (handleSubmit_resume inst props r (removeNth i (tasks w)) w, [])
      | _ => None
      end
  | DelayElapsed i =>
      match nth_error (tasks w) i with
      | Some (AwaitDelay inst props) =>
          Some (delayElapsed inst props (removeNth i (tasks w)) w)
      | _ => None
      end
  end.

(** The worlds a session can be in. *)
Inductive reachable : World -> Prop :=
| reachable_initial : reachable initialWorld
| reachable_step w ev w' calls :
    reachable w -> step w ev = Some (w', calls) -> reachable w'.

(** Running a list of events from a world. *)
Fixpoint steps (w : World) (evs : list Input) : option World :=
  match evs with
  | [] => Some w
  | ev :: evs' =>
      match step w ev with
      | Some (w', _) => steps w' evs'
      | None => None
      end
  end.

(** [advanceRound(bonusSeconds)]: the prop [onNextRound] of the current
    render, that is [handleNextRound] closed over the current
    [gameState]. *)
Definition advanceRound (bonusSeconds : Z) (w : World) : World * list Call :=
  handleNextRound (gameState (app w)) bonusSeconds w.

(** ** Notions used by the statements *)

(** [p] occurs in [s]. *)
Definition contains (s p : jsstring) : Prop :=
  exists before after, s = before ++ p ++ after.

(** The outcome of one turn of the loop of [generateWithFallback], from
    the reply of the backend. *)
Definition attempt (JSON_parse : jsstring -> JsError + JsVal) (r : Reply)
  : JsError + JsVal :=
  match r with
  | Rejected e => inl e
  | Response (Some ((_ :: _) as t)) => JSON_parse t
  | Response _ => JSON_parse (lit "{}")
  end.

(** What holds of the suspended handlers of a session: at most one is
    suspended; a generation is awaited in LOADING_CHALLENGE only; while a
    validation or its success timer is pending the overlay is shown, and
    the handler has the exclusions and the difficulty of the current
    state. *)
Definition pendingOk (w : World) : Prop :=
  let g := gameState (app w) in
  match tasks w with
  | [] => True
  | [AwaitStart] => status g = LOADING_CHALLENGE /\ score g = 0
  | [AwaitNext] => status g = LOADING_CHALLENGE
  | [AwaitValidation inst props] | [AwaitDelay inst props] =>
      isValidating (app w) = true
      /\ (status g = PLAYING \/ status g = GAME_OVER)
      /\ seenEntities props = seenEntities g
      /\ difficulty props = difficulty g
      /\ (forall sc, screen w = Some sc -> validating sc = true)
  | _ => False
  end.

(** The invariant of the session: time is never negative and is left
    while the session plays or loads; a playing session has a challenge;
    the status VALIDATING is never taken; [GameScreen] is mounted exactly
    when it is rendered. *)
Record Inv (w : World) : Prop := mkInv {
  inv_time_nonneg : 0 <= timeLeft (gameState (app w));
  inv_time_positive :
    status (gameState (app w)) = PLAYING
    \/ status (gameState (app w)) = LOADING_CHALLENGE ->
    0 < timeLeft (gameState (app w));
  inv_challenge :
    status (gameState (app w)) = PLAYING ->
    currentChallenge (gameState (app w)) <> None;
  inv_not_validating : status (gameState (app w)) <> VALIDATING;
  inv_mounted :
    screen w = None <-> showsGameScreen (gameState (app w)) = false;
  inv_pending : pendingOk w
}.

(** A code unit that the letter unification and the mark stripping leave
    alone. *)
Definition plain (c : code_unit) : bool :=
  negb (isAlefVariant c || isTehMarbuta c || isAlefMaksura c || isTashkeel c).

(** The three replacements and the stripping of the marks, the middle of
    [normalizeArabic]. *)
Definition unifyLetters (s : jsstring) : jsstring :=
  removeClass isTashkeel
    (replaceClass isAlefMaksura YEH
      (replaceClass isTehMarbuta HEH
        (replaceClass isAlefVariant ALEF s))).

(** ** Sample data *)

Definition sampleEntity (n : string) : GameEntity :=
  mkEntity (lit n) PLAYER None None None.

Definition sampleChallenge : Challenge :=
  mkChallenge (lit "c1") (sampleEntity "Barcelona") (sampleEntity "Milan")
    (Some [lit "Ronaldo"; lit "Ronaldinho Ga" ++ [0xFA%N] ++ lit "cho"]).

(** An instance of [JSON.parse] for the text of an empty object. *)
Definition parseEmptyObject (s : jsstring) : JsError + JsVal :=
  if Js.eqb s (lit "{}") then inr (VObj [])
  else inl (mkError (lit "SyntaxError: Unexpected token") None).

Definition quotaError : JsError :=
  mkError (lit "ApiError: 429 RESOURCE_EXHAUSTED") (Some 429).

Definition networkError : JsError :=
  mkError (lit "TypeError: Failed to fetch") None.

(** A backend that is rate-limited on every model. *)
Definition envExhausted : Env :=
  mkEnv (fun _ _ => Rejected quotaError) (fun _ => O) (fun _ => lit "uuid").

(** A backend that cannot be reached. *)
Definition envOffline : Env :=
  mkEnv (fun _ _ => Rejected networkError) (fun _ => O) (fun _ => lit "uuid").



(** The world after a list of events of a fresh page. *)
Definition after (evs : list Input) : World :=
  match steps initialWorld evs with
  | Some w => w
  | None => initialWorld
  end.



(** The first round is played. *)
Definition playingWorld : World :=
  after [ClickStart; Generated 0 (inr sampleChallenge)].

(** The first round has been skipped, the second challenge is awaited. *)
Definition skippedWorld : World :=
  after [ClickStart; Generated 0 (inr sampleChallenge); ClickSkip].


(** "الألماني", and what one and two passes of the normaliser leave of
    it: "الماني" and "ماني". *)
Definition almani : jsstring :=
  [0x627; 0x644; 0x623; 0x644; 0x645; 0x627; 0x646; 0x64A]%N.
Definition almani_once : jsstring :=
  [0x627; 0x644; 0x645; 0x627; 0x646; 0x64A]%N.
Definition almani_twice : jsstring := [0x645; 0x627; 0x646; 0x64A]%N.

(** "الأهلي" *)
Definition alahly : jsstring := [0x627; 0x644; 0x623; 0x647; 0x644; 0x64A]%N.

(** ** The card ([Card.tsx]) *)

Module Card.

(** Fallback images, one for every type. *)
Definition FALLBACK_IMAGES (t : EntityType) : jsstring :=
  match t with
  | TEAM => lit "https://upload.wikimedia.org/wikipedia/commons/thumb/d/d3/Soccerball.svg/600px-Soccerball.svg.png"
  | PLAYER => lit "https://upload.wikimedia.org/wikipedia/commons/thumb/8/89/Portrait_Placeholder.png/480px-Portrait_Placeholder.png"
  | COACH => lit "https://upload.wikimedia.org/wikipedia/commons/thumb/5/5f/User_with_smile.svg/1024px-User_with_smile.svg.png"
  | TROPHY => lit "https://upload.wikimedia.org/wikipedia/commons/thumb/1/10/Trophy_Cup_Flat_Icon.svg/1024px-Trophy_Cup_Flat_Icon.svg.png"
  | NATIONAL_TEAM => lit "https://upload.wikimedia.org/wikipedia/commons/thumb/db/db/World_map_green.png/640px-World_map_green.png"
  | YEAR => lit "https://upload.wikimedia.org/wikipedia/commons/thumb/0/08/Simple_icon_time.svg/600px-Simple_icon_time.svg.png"
  end.

(** The two [useState] cells of a card. *)
Record State := mkState {
  imageError : bool;
  imageLoaded : bool
}.

Definition initialState : State := mkState false false.

(** Truthiness of an optional string: it is defined and not empty. *)
Definition present (s : option jsstring) : bool :=
  match s with
  | Some (_ :: _) => true
  | _ => false
  end.

(** [a || b] for an optional string [a] and a string [b]. *)
Definition orElse (a : option jsstring) (b : jsstring) : jsstring :=
  match a with
  | Some ((_ :: _) as s) => s
  | _ => b
  end.

(** [imageError || !entity.imageUrl] *)
Definition isFallback (entity : GameEntity) (st : State) : bool :=
  imageError st || negb (present (imageUrl entity)).

(** [FALLBACK_IMAGES[entity.type] || FALLBACK_IMAGES[EntityType.TEAM]] *)
Definition typeFallbackSrc (entity : GameEntity) : jsstring :=
  orElse (Some (FALLBACK_IMAGES (type entity))) (FALLBACK_IMAGES TEAM).

(** [(!imageError && entity.imageUrl) ? entity.imageUrl : typeFallbackSrc] *)
Definition effectiveImageSrc (entity : GameEntity) (st : State) : jsstring :=
  if negb (imageError st) && present (imageUrl entity)
  then match imageUrl entity with
       | Some url => url
       | None => []
       end
  else typeFallbackSrc entity.

(** [entity.color || '#10b981'] *)
Definition customColor (entity : GameEntity) : jsstring :=
  orElse (color entity) (lit "#10b981").

(** The loading shimmer is rendered when [!imageLoaded && !isFallback]. *)
Definition showsShimmer (entity : GameEntity) (st : State) : bool :=
  negb (imageLoaded st) && negb (isFallback entity st).

(** The main image is opaque when [imageLoaded || isFallback]. *)
Definition imageVisible (entity : GameEntity) (st : State) : bool :=
  imageLoaded st || isFallback entity st.

(** What happens to a mounted card: its image fails, its image loads, or
    it is rendered with another entity. *)
Inductive Event :=
| OnError
| OnLoad
| Rerender (entity' : GameEntity).

Definition optionEqb (a b : option jsstring) : bool :=
  match a, b with
  | Some s, Some t => Js.eqb s t
  | None, None => true
  | _, _ => false
  end.

(** The effect with dependencies [[entity.imageUrl, entity.name]] resets
    both cells when one of the two has changed. *)
Definition step (entity : GameEntity) (st : State) (ev : Event)
  : GameEntity * State :=
  match ev with
  | OnError => (entity, mkState true (imageLoaded st))
  | OnLoad => (entity, mkState (imageError st) true)
  | Rerender entity' =>
      if optionEqb (imageUrl entity) (imageUrl entity')
         && Js.eqb (name entity) (name entity')
      then (entity', st)
      else (entity', initialState)
  end.

Fixpoint steps (entity : GameEntity) (st : State) (evs : list Event)
  : GameEntity * State :=
  match evs with
  | [] => (entity, st)
  | ev :: evs' => let '(e1, s1) := step entity st ev in steps e1 s1 evs'
  end.

(** The events of the image element only. *)
Definition isImageEvent (ev : Event) : bool :=
  match ev with
  | OnError | OnLoad => true
  | Rerender _ => false
  end.

End Card.

(** ** More notions used by the statements *)

(** The prompt of [generateChallenge] for the theme and the structure
    drawn at the calls [t] and [t + 1] of a run. *)
Definition drawnPrompt (env : Env) (t : nat) (d : Difficulty)
  (excludeEntities : list jsstring) : jsstring :=
  challengePrompt
    (nth (Nat.modulo (random env t) (length THEMES)) THEMES [])
    (nth (Nat.modulo (random env (S t)) (length STRUCTURES)) STRUCTURES [])
    d excludeEntities.

(** The string value of a member of the [EntityType] enum. *)
Definition EntityType_value (t : EntityType) : jsstring :=
  match t with
  | TEAM => lit "TEAM"
  | PLAYER => lit "PLAYER"
  | COACH => lit "COACH"
  | TROPHY => lit "TROPHY"
  | NATIONAL_TEAM => lit "NATIONAL_TEAM"
  | YEAR => lit "YEAR"
  end.

Definition optionalField (key : jsstring) (v : option jsstring)
  : list (jsstring * JsVal) :=
  match v with
  | Some s => [(key, VStr s)]
  | None => []
  end.

(** The object of the response schema that describes an entity. *)
Definition entityValue (e : GameEntity) : JsVal :=
  VObj ([(lit "name", VStr (name e));
         (lit "type", VStr (EntityType_value (type e)))]
        ++ optionalField (lit "imageUrl") (imageUrl e)
        ++ optionalField (lit "color") (color e)).

(** The object of the response schema that describes a challenge. *)
Definition challengeValue (a b : GameEntity) (solutions : list jsstring)
  : JsVal :=
  VObj [(lit "cardA", entityValue a); (lit "cardB", entityValue b);
        (lit "possibleSolutions", VArr (List.map VStr solutions))].

(** An entity as [generateChallenge] builds it: without description. *)
Definition withoutDescription (e : GameEntity) : GameEntity :=
  mkEntity (name e) (type e) None (imageUrl e) (color e).

(** The rule of the local tier, on the normalised answer of the player and
    a normalised accepted answer. *)
Definition matchRule (input accepted : jsstring) : Prop :=
  input = accepted
  \/ (contains input accepted /\ (3 < length accepted)%nat)
  \/ (contains accepted input /\ (3 < length input)%nat).

(** What else holds of a session: the score is never negative; the time
    left is at most 90 seconds and 10 more for every point; the overlay of
    a validation is shown exactly while a validation or its success timer
    is pending; LOADING_CHALLENGE is the status exactly while a generation
    is awaited, and nothing has been seen while the first one is; a
    pending validation belongs to the mounted screen; the two cards shown
    are the last two entities seen. *)
Definition awaited (w : World) : Prop :=
  let g := gameState (app w) in
  match tasks w with
  | [AwaitStart] => isValidating (app w) = false /\ seenEntities g = []
  | [AwaitNext] => isValidating (app w) = false
  | [AwaitValidation inst _] | [AwaitDelay inst _] =>
      isValidating (app w) = true
      /\ forall sc, screen w = Some sc -> instance sc = inst
  | _ => isValidating (app w) = false /\ status g <> LOADING_CHALLENGE
  end.

Definition shownAreSeen (g : GameState) : Prop :=
  match currentChallenge g with
  | Some challenge =>
      exists earlier,
        seenEntities g
        = earlier ++ [name (cardA challenge); name (cardB challenge)]
  | None => True
  end.

Record Inv2 (w : World) : Prop := mkInv2 {
  inv_score : 0 <= score (gameState (app w));
  inv_time_bound :
    timeLeft (gameState (app w)) <= 90 + 10 * score (gameState (app w));
  inv_awaited : awaited w;
  inv_shown :
    status (gameState (app w)) = PLAYING -> shownAreSeen (gameState (app w))
}.

(** A backend that answers every request without text. *)
Definition envSilent : Env :=
  mkEnv (fun _ _ => Response None) (fun _ => O) (fun _ => lit "uuid").

(** An instance of [JSON.parse] that reads every text as the challenge
    of [Barcelona] and [Milan]. *)
Definition barcelona : GameEntity :=
  mkEntity (lit "Barcelona") TEAM None (Some (lit "https://b.png"))
    (Some (lit "#A50044")).
Definition milan : GameEntity :=
  mkEntity (lit "Milan") TEAM None (Some (lit "https://m.png")) None.
Definition parseChallenge (s : jsstring) : JsError + JsVal :=
  inr (challengeValue barcelona milan [lit "Ronaldinho"]).


(** The game is over after the first round has run out of time. *)
Definition overWorld : World :=
  after ([ClickStart; Generated 0 (inr sampleChallenge)] ++ repeat Tick 60).

(** A backend that answers every request with the text of an empty
    object. *)
Definition envBraces : Env :=
  mkEnv (fun _ _ => Response (Some (lit "{}"))) (fun _ => O)
    (fun _ => lit "uuid").



(** The player has gone back to the menu after the time ran out. *)
Definition menuWorld : World :=
  after ([ClickStart; Generated 0 (inr sampleChallenge)] ++ repeat Tick 60
         ++ [ClickMenu]).

(** ** Properties of the string operations *)

Lemma eqb_eq (s t : jsstring) : Js.eqb s t = true <-> s = t.
Proof.
  unfold Js.eqb. destruct (list_eq_dec N.eq_dec s t); split; congruence.
Qed.

Lemma eqb_refl (s : jsstring) : Js.eqb s s = true.
Proof. now apply eqb_eq. Qed.

Lemma startsWith_spec (s p : jsstring) :
  startsWith s p = true <-> exists rest, s = p ++ rest.
Proof.
  revert s. induction p as [|c p IH]; intros s.
  - split; [intros _; now exists s | intros _; now destruct s].
  - destruct s as [|d s]; simpl.
    + split; [discriminate | intros [rest H]; discriminate].
    + rewrite andb_true_iff, N.eqb_eq, IH. split.
      * intros [-> [rest ->]]. now exists rest.
      * intros [rest H]. injection H as -> ->. split; [reflexivity | now exists rest].
Qed.

Lemma includes_spec (s p : jsstring) : includes s p = true <-> contains s p.
Proof.
  unfold contains. induction s as [|d s IH]; cbn [includes].
  - rewrite orb_false_r, startsWith_spec. split.
    + intros [rest H]. exists [], rest. exact H.
    + intros [b [a H]]. destruct b; [now exists a | discriminate].
  - rewrite orb_true_iff, startsWith_spec, IH. split.
    + intros [[rest H] | [b [a H]]].
      * exists [], rest. exact H.
      * exists (d :: b), a. simpl. now rewrite H.
    + intros [b [a H]]. destruct b as [|x b].
      * left. now exists a.
      * right. injection H as _ H. now exists b, a.
Qed.




(** ** The answer normaliser *)

Lemma normalizeArabic_unfold toLowerCase (text : jsstring) :
  text <> [] ->
  normalizeArabic toLowerCase text
  = removePrefix AL (unifyLetters (toLowerCase (trim text))).
Proof. destruct text; [congruence | reflexivity]. Qed.

Lemma unify_unit_plain (c : code_unit) :
  let c1 := if isAlefVariant c then ALEF else c in
  let c2 := if isTehMarbuta c1 then HEH else c1 in
  let c3 := if isAlefMaksura c2 then YEH else c2 in
  isTashkeel c3 = false -> plain c3 = true.
Proof.
  cbv zeta.
  unfold plain, isAlefVariant, isTehMarbuta, isAlefMaksura, ALEF, HEH, YEH.
  cbn [existsb].
  destruct (N.eqb_spec c 0x623) as [->|H1]; [intros _; reflexivity|].
  destruct (N.eqb_spec c 0x625) as [->|H2]; [intros _; reflexivity|].
  destruct (N.eqb_spec c 0x622) as [->|H3]; [intros _; reflexivity|].
  cbn [orb].
  destruct (N.eqb_spec c 0x629) as [->|H4]; [intros _; reflexivity|].
  destruct (N.eqb_spec c 0x649) as [->|H5]; [intros _; reflexivity|].
  apply N.eqb_neq in H1, H2, H3, H4, H5.
  intros ->. rewrite H1, H2, H3, H4, H5. reflexivity.
Qed.

Lemma unifyLetters_plain (s : jsstring) :
  Forall (fun c => plain c = true) (unifyLetters s).
Proof.
  unfold unifyLetters, removeClass, replaceClass.
  induction s as [|c s IH]; [constructor|].
  cbn [List.map filter].
  pose proof (unify_unit_plain c) as Hc. cbv zeta in Hc.
  destruct (isTashkeel _) eqn:E in |- *; cbn [negb].
  - exact IH.
  - constructor; [now apply Hc | exact IH].
Qed.

Lemma Forall_skipn_keep {A} (P : A -> Prop) (n : nat) (l : list A) :
  Forall P l -> Forall P (skipn n l).
Proof.
  revert l. induction n as [|n IH]; intros l H; [exact H|].
  destruct H; simpl; [constructor | now apply IH].
Qed.

Lemma normalizeArabic_plain toLowerCase (x : jsstring) :
  Forall (fun c => plain c = true) (normalizeArabic toLowerCase x).
Proof.
  destruct x as [|c x]; [constructor|].
  rewrite normalizeArabic_unfold by discriminate.
  unfold removePrefix. destruct (startsWith _ AL).
  - apply Forall_skipn_keep, unifyLetters_plain.
  - apply unifyLetters_plain.
Qed.

Lemma unifyLetters_fixes_plain (s : jsstring) :
  Forall (fun c => plain c = true) s -> unifyLetters s = s.
Proof.
  unfold unifyLetters, removeClass, replaceClass.
  induction 1 as [|c s Hc _ IH]; [reflexivity|].
  unfold plain in Hc. rewrite negb_true_iff, !orb_false_iff in Hc.
  destruct Hc as [[[Ha Ht] Hm] Hk].
  cbn [List.map filter]. rewrite Ha, Ht, Hm, Hk. cbn [negb].
  now rewrite IH.
Qed.

(** C3, as amended: a second pass changes nothing when the first one has
    left a string that is trimmed, lower-case and without the article in
    front; the letter unification and the stripping of the marks never need
    a second pass. *)
Theorem normalizeArabic_idempotent_on_settled toLowerCase (x : jsstring) :
  trim (normalizeArabic toLowerCase x) = normalizeArabic toLowerCase x ->
  toLowerCase (normalizeArabic toLowerCase x) = normalizeArabic toLowerCase x ->
  startsWith (normalizeArabic toLowerCase x) AL = false ->
  normalizeArabic toLowerCase (normalizeArabic toLowerCase x)
  = normalizeArabic toLowerCase x.
Proof.
  pose proof (normalizeArabic_plain toLowerCase x) as Hplain.
  set (y := normalizeArabic toLowerCase x) in *.
  intros Htrim Hlower Hal.
  destruct (list_eq_dec N.eq_dec y []) as [->|Hne]; [reflexivity|].
  rewrite normalizeArabic_unfold by exact Hne.
  rewrite Htrim, Hlower, (unifyLetters_fixes_plain y Hplain).
  unfold removePrefix. now rewrite Hal.
Qed.

(** With the folding of the Basic Latin letters the first pass always
    leaves a lower-case string: only the blanks and the article can make a
    second pass change it. *)
Lemma lowerBasic_fixes (s : jsstring) :
  Forall (fun c => isUpperBasic c = false) s -> lowerBasic s = s.
Proof.
  unfold lowerBasic. induction 1 as [|c s Hc _ IH]; [reflexivity|].
  cbn [List.map]. now rewrite Hc, IH.
Qed.

Lemma lowerBasic_lowered (s : jsstring) :
  Forall (fun c => isUpperBasic c = false) (lowerBasic s).
Proof.
  unfold lowerBasic. induction s as [|c s IH]; constructor; [|exact IH].
  destruct (isUpperBasic c) eqn:E; [|exact E].
  unfold isUpperBasic in *. apply andb_true_iff in E. destruct E as [E1 E2].
  apply N.leb_le in E1, E2. apply andb_false_iff. right.
  apply N.leb_gt. lia.
Qed.

Lemma unifyLetters_lowered (s : jsstring) :
  Forall (fun c => isUpperBasic c = false) s ->
  Forall (fun c => isUpperBasic c = false) (unifyLetters s).
Proof.
  unfold unifyLetters, removeClass, replaceClass.
  induction 1 as [|c s Hc _ IH]; [constructor|].
  cbn [List.map filter].
  destruct (negb _); [constructor|]; try exact IH.
  destruct (isAlefVariant c); cbn;
    repeat match goal with
           | |- context [if ?b then _ else _] => destruct b
           end; try reflexivity; exact Hc.
Qed.

Lemma normalizeArabic_lowerBasic_idempotent (x : jsstring) :
  trim (normalizeArabic lowerBasic x) = normalizeArabic lowerBasic x ->
  startsWith (normalizeArabic lowerBasic x) AL = false ->
  normalizeArabic lowerBasic (normalizeArabic lowerBasic x)
  = normalizeArabic lowerBasic x.
Proof.
  pose proof (normalizeArabic_plain lowerBasic x) as Hplain.
  assert (Hlow : Forall (fun c => isUpperBasic c = false)
                   (normalizeArabic lowerBasic x)).
  { destruct x as [|c x]; [constructor|].
    rewrite normalizeArabic_unfold by discriminate.
    unfold removePrefix. destruct (startsWith _ AL);
      [apply Forall_skipn_keep|]; apply unifyLetters_lowered, lowerBasic_lowered. }
  set (y := normalizeArabic lowerBasic x) in *.
  intros Htrim Hal.
  destruct (list_eq_dec N.eq_dec y []) as [->|Hne]; [reflexivity|].
  rewrite normalizeArabic_unfold by exact Hne.
  rewrite Htrim, (lowerBasic_fixes y Hlow), (unifyLetters_fixes_plain y Hplain).
  unfold removePrefix. now rewrite Hal.
Qed.

(** ** The local tier of the validation client *)

(** C4: an accepted answer that normalises to the same string as the
    answer of the player, or that contains it or is contained in it with
    the contained side longer than 3, makes [validateAnswer] return the
    success result at once, without any call to its environment. *)
Theorem validateAnswer_local_match toLowerCase JSON_parse
  (cardA cardB userAnswer : jsstring) (possibleAnswers : list jsstring) :
  possibleAnswers <> [] ->
  (exists ans,
      In ans possibleAnswers
      /\ let input := normalizeArabic toLowerCase userAnswer in
         let accepted := normalizeArabic toLowerCase ans in
         input = accepted
         \/ (contains input accepted /\ (3 < length accepted)%nat)
         \/ (contains accepted input /\ (3 < length input)%nat)) ->
  validateAnswer toLowerCase JSON_parse cardA cardB userAnswer possibleAnswers
  = Ret (mkResult (VBool true) (VStr reason_correct) VUndefined)
  /\ forall env t,
      run env t
        (validateAnswer toLowerCase JSON_parse cardA cardB userAnswer
           possibleAnswers)
      = ([], Returned (mkResult (VBool true) (VStr reason_correct) VUndefined)).
Proof.
  intros Hne (ans & Hin & Hmatch). cbv zeta in Hmatch.
  assert (Hlocal :
    existsb (localMatch toLowerCase (normalizeArabic toLowerCase userAnswer))
      possibleAnswers = true).
  { apply existsb_exists. exists ans. split; [exact Hin|].
    unfold localMatch. rewrite !orb_true_iff, !andb_true_iff.
    destruct Hmatch as [Heq | [[Hc Hl] | [Hc Hl]]].
    - left; left. apply eqb_eq. now symmetry.
    - left; right. split; [now apply Nat.ltb_lt | now apply includes_spec].
    - right. split; [now apply Nat.ltb_lt | now apply includes_spec]. }
  assert (Hlen : (0 <? length possibleAnswers)%nat = true).
  { apply Nat.ltb_lt. destruct possibleAnswers; [congruence | simpl; lia]. }
  assert (Hret :
    validateAnswer toLowerCase JSON_parse cardA cardB userAnswer possibleAnswers
    = Ret (mkResult (VBool true) (VStr reason_correct) VUndefined)).
  { unfold validateAnswer. cbv zeta. now rewrite Hlen, Hlocal. }
  split; [exact Hret|]. intros env t. now rewrite Hret.
Qed.

(** ** Runs of the service programs *)

Lemma run_bind {A B} env (p : prog A) (f : A -> prog B) (t : nat) :
  run env t (bind p f)
  = match run env t p with
    | (tr, Returned a) =>
        let '(tr', o) := run env (length tr + t) (f a) in (tr ++ tr', o)
    | (tr, Thrown e) => (tr, Thrown e)
    | (tr, Untyped) => (tr, Untyped)
    end.
Proof.
  revert t.
  induction p as [a|e| |rq k IH|ms k IH|k IH|n k IH|k IH]; intros t;
    cbn [bind run]; try reflexivity.
  - cbn [length Nat.add app]. now destruct (run env t (f a)).
  - rewrite IH. destruct (run env (S t) (k _)) as [tr [a|e|]]; try reflexivity.
    cbn [length]. rewrite Nat.add_succ_comm. now destruct (run env _ (f a)).
  - rewrite IH. destruct (run env (S t) k) as [tr [a|e|]]; try reflexivity.
    cbn [length]. rewrite Nat.add_succ_comm. now destruct (run env _ (f a)).
  - rewrite IH. destruct (run env (S t) k) as [tr [a|e|]]; try reflexivity.
    cbn [length]. rewrite Nat.add_succ_comm. now destruct (run env _ (f a)).
  - rewrite IH. destruct (run env (S t) (k _)) as [tr [a|e|]]; try reflexivity.
    cbn [length]. rewrite Nat.add_succ_comm. now destruct (run env _ (f a)).
  - rewrite IH. destruct (run env (S t) (k _)) as [tr [a|e|]]; try reflexivity.
    cbn [length]. rewrite Nat.add_succ_comm. now destruct (run env _ (f a)).
Qed.

Lemma run_try_catch {A} env (p : prog A) (h : JsError -> prog A) (t : nat) :
  run env t (try_catch p h)
  = match run env t p with
    | (tr, Thrown e) =>
        let '(tr', o) := run env (length tr + t) (h e) in (tr ++ tr', o)
    | (tr, o) => (tr, o)
    end.
Proof.
  revert t.
  induction p as [a|e| |rq k IH|ms k IH|k IH|n k IH|k IH]; intros t;
    cbn [try_catch run]; try reflexivity.
  - cbn [length Nat.add app]. now destruct (run env t (h e)).
  - rewrite IH. destruct (run env (S t) (k _)) as [tr [a|e|]]; try reflexivity.
    cbn [length]. rewrite Nat.add_succ_comm. now destruct (run env _ (h e)).
  - rewrite IH. destruct (run env (S t) k) as [tr [a|e|]]; try reflexivity.
    cbn [length]. rewrite Nat.add_succ_comm. now destruct (run env _ (h e)).
  - rewrite IH. destruct (run env (S t) k) as [tr [a|e|]]; try reflexivity.
    cbn [length]. rewrite Nat.add_succ_comm. now destruct (run env _ (h e)).
  - rewrite IH. destruct (run env (S t) (k _)) as [tr [a|e|]]; try reflexivity.
    cbn [length]. rewrite Nat.add_succ_comm. now destruct (run env _ (h e)).
  - rewrite IH. destruct (run env (S t) (k _)) as [tr [a|e|]]; try reflexivity.
    cbn [length]. rewrite Nat.add_succ_comm. now destruct (run env _ (h e)).
Qed.

(** Every run of [generateWithFallback], from the replies of the backend
    to the primary and to the fallback model. *)
Lemma run_generateWithFallback JSON_parse env t prompt schema temp :
  let rq m := mkRequest m prompt (lit "application/json") schema temp in
  let r1 := backend env t (rq PRIMARY_MODEL) in
  let r2 := backend env (3 + t)%nat (rq FALLBACK_MODEL) in
  let retry :=
    [EvGenerateContent (rq PRIMARY_MODEL) r1; EvConsole; EvSleep 1000;
     EvGenerateContent (rq FALLBACK_MODEL) r2] in
  run env t (generateWithFallback JSON_parse prompt schema temp)
  = match attempt JSON_parse r1 with
    | inr v => ([EvGenerateContent (rq PRIMARY_MODEL) r1], Returned v)
    | inl e1 =>
        if isQuotaError e1 then
          match attempt JSON_parse r2 with
          | inr v => (retry, Returned v)
          | inl e2 =>
              if isQuotaError e2
              then (retry ++ [EvConsole; EvSleep 1000], Thrown e2)
              else (retry, Thrown e2)
          end
        else ([EvGenerateContent (rq PRIMARY_MODEL) r1], Thrown e1)
    end.
Proof.
  cbv zeta. unfold generateWithFallback. cbn [tryModels].
  unfold generateContent. change (3 + t)%nat with (S (S (S t))).
  repeat first
    [ progress cbn [attempt lift bind try_catch run negb app Nat.add]
    | match goal with
      | |- context [isQuotaError ?e] => destruct (isQuotaError e)
      end
    | match goal with
      | |- context [JSON_parse ?x] => destruct (JSON_parse x)
      end
    | match goal with
      | |- context [backend env ?n ?rq] =>
          destruct (backend env n rq) as [?|[[|? ?]|]]
      end ];
    reflexivity.
Qed.

Lemma generateWithFallback_typed JSON_parse env t prompt schema temp :
  snd (run env t (generateWithFallback JSON_parse prompt schema temp))
  <> Untyped.
Proof.
  pose proof (run_generateWithFallback JSON_parse env t prompt schema temp) as H.
  cbv zeta in H. rewrite H.
  repeat match goal with
         | |- context [attempt JSON_parse ?r] => destruct (attempt JSON_parse r)
         | |- context [isQuotaError ?e] => destruct (isQuotaError e)
         end; discriminate.
Qed.

(** ** The fallback on rate limits *)


(** ** The remote tier of the validation client *)

(** C5: [validateAnswer] returns a result in every run, it never throws;
    and when the local tier has found no match and [generateWithFallback]
    throws, whatever the error, the result is the fixed "service busy"
    one. *)
Theorem validateAnswer_absorbs_backend_failure toLowerCase JSON_parse env t
  (cardA cardB userAnswer : jsstring) (possibleAnswers : list jsstring) :
  (exists result,
      snd (run env t
             (validateAnswer toLowerCase JSON_parse cardA cardB userAnswer
                possibleAnswers))
      = Returned result)
  /\ forall e,
      (0 <? length possibleAnswers)%nat
      && existsb (localMatch toLowerCase (normalizeArabic toLowerCase userAnswer))
           possibleAnswers = false ->
      snd (run env t
             (generateWithFallback JSON_parse
                (validationPrompt cardA cardB userAnswer) validationSchema
                (2 # 10)))
      = Thrown e ->
      snd (run env t
             (validateAnswer toLowerCase JSON_parse cardA cardB userAnswer
                possibleAnswers))
      = Returned (mkResult (VBool false) (VStr reason_busy) VUndefined).
Proof.
  pose proof (generateWithFallback_typed JSON_parse env t
                (validationPrompt cardA cardB userAnswer) validationSchema
                (2 # 10)) as Htyped.
  unfold validateAnswer. cbv zeta.
  set (remote := try_catch _ _).
  assert (Hremote :
    (exists result, snd (run env t remote) = Returned result)
    /\ forall e,
        snd (run env t
               (generateWithFallback JSON_parse
                  (validationPrompt cardA cardB userAnswer) validationSchema
                  (2 # 10))) = Thrown e ->
        snd (run env t remote)
        = Returned (mkResult (VBool false) (VStr reason_busy) VUndefined)).
  { unfold remote. rewrite run_try_catch, run_bind.
    destruct (run env t (generateWithFallback _ _ _ _)) as [tr [data|e0|]].
    - split; [|discriminate].
      destruct data; cbn; eexists; reflexivity.
    - split; [|intros e1 _]; cbn; [eexists|]; reflexivity.
    - now contradiction Htyped. }
  destruct Hremote as [Hret Hbusy].
  split.
  - destruct (0 <? length possibleAnswers)%nat; [|exact Hret].
    destruct (existsb _ possibleAnswers); [|exact Hret].
    eexists; reflexivity.
  - intros e Hlocal Hthrown.
    destruct (0 <? length possibleAnswers)%nat; [|now apply (Hbusy e)].
    cbn [andb] in Hlocal. rewrite Hlocal. now apply (Hbusy e).
Qed.

(** ** The session *)


Lemma GameStatus_eqb_neq (a b : GameStatus) :
  GameStatus_eqb a b = false <-> a <> b.
Proof. destruct a, b; simpl; split; congruence. Qed.


Lemma render_app a tk w : app (render a tk w) = a.
Proof. unfold render. destruct (showsGameScreen _), (screen w); reflexivity. Qed.


Lemma render_mounted a tk w :
  screen (render a tk w) = None <-> showsGameScreen (gameState a) = false.
Proof.
  unfold render. destruct (showsGameScreen _), (screen w); simpl;
    split; congruence.
Qed.

Lemma Inv_initial : Inv initialWorld.
Proof.
  constructor; cbn; try lia; try congruence; try tauto.
  all: try (intros [H|H]; discriminate).
Qed.

(** While no overlay is shown no handler is suspended. *)
Lemma idle_no_task w :
  Inv w -> showLoading (app w) = false -> tasks w = [].
Proof.
  intros [_ _ _ _ _ Hp]. unfold showLoading, pendingOk in *. cbv zeta in Hp.
  rewrite orb_false_iff, GameStatus_eqb_neq. intros [Hs Hv].
  destruct (tasks w) as [|tk rest]; [reflexivity|]. exfalso.
  destruct tk, rest; try contradiction; destruct Hp; congruence.
Qed.



(** *** Case analysis on an event

    The proofs about [step] take the world apart, unfold the handlers and
    look at each branch. *)

Ltac split_world w :=
  let g := fresh "g" in
  destruct w as [[g hs er iv] sc tk m];
  destruct g as [st scr tl ch msg d h seen].

Ltac open_handlers :=
  unfold step, timerRuns, showLoading, startGame, resetGame, handleSubmit,
    handleSkip, handleNextRound, startGame_resume, handleNextRound_resume,
    handleSubmit_resume, delayElapsed, render, onScreen, showsGameScreen,
    tick, startGame_reset, startGame_loaded, handleNextRound_advance,
    handleNextRound_loaded, setDifficulty, withStatus in *.

(** The lists of suspended handlers that [pendingOk] allows. *)
Ltac known_tasks Hp tk :=
  unfold pendingOk in Hp; cbn in Hp;
  destruct tk as [|[| |?inst ?props|?inst ?props] [|? ?]];
  try contradiction.

(** The branches of a step [H : step w ev = Some _]. *)
Ltac step_cases H :=
  repeat (cbn in H;
    match type of H with
    | None = Some _ => discriminate H
    | context [match nth_error _ ?i with _ => _ end] =>
        destruct i as [|[|?]]
    | context [if ?c then _ else _] => destruct c eqn:?
    | context [match ?r with inl _ => _ | inr _ => _ end] => destruct r
    end).

Ltac bool_facts :=
  repeat match goal with
         | H : (_ <? _) = true |- _ => apply Z.ltb_lt in H
         | H : (_ <? _) = false |- _ => apply Z.ltb_ge in H
         | H : (_ <=? _) = true |- _ => apply Z.leb_le in H
         | H : (_ <=? _) = false |- _ => apply Z.leb_gt in H
         | H : (_ || _) = false |- _ => apply orb_false_iff in H
         | H : (_ && _) = true |- _ => apply andb_true_iff in H
         | H : negb _ = true |- _ => apply negb_true_iff in H
         | H : _ /\ _ |- _ => destruct H
         | H : _ <-> _ |- _ => destruct H
         end.

(** The invariant of a world given by its fields. *)
Ltac finish_inv :=
  bool_facts;
  constructor; cbn in *;
  repeat match goal with
         | |- context [if ?c then _ else _] => destruct c eqn:?; cbn in *
         | |- context [match ?d with EASY => _ | _ => _ end] =>
             destruct d; cbn in *
         end;
  bool_facts;
  try lia; try congruence;
  try (intuition (try congruence; try lia); fail);
  try (repeat split; try congruence; try lia; try tauto;
       intros ? Heq; injection Heq as <-; cbn; auto; fail).

(** Every event keeps the invariant. *)
Lemma Inv_step w ev w' calls :
  Inv w -> step w ev = Some (w', calls) -> Inv w'.
Proof.
  intros [H1 H2 H3 H4 H5 H6] Hstep. split_world w. cbn in *.
  known_tasks H6 tk.
  all: destruct ev.
  all: open_handlers; unfold TIME_LIMITS in *.
  all: cbn in Hstep.
  all: destruct st; cbn in Hstep; try discriminate.
  all: destruct ch as [c|]; destruct sc as [s|]; cbn in *.
  all: try (destruct H5 as [H5a H5b];
            first [ discriminate (H5a eq_refl) | discriminate (H5b eq_refl) ]).
  all: try (exfalso; apply H3; reflexivity).
  all: step_cases Hstep.
  all: injection Hstep as <- <-.
  all: try (exfalso; bool_facts; congruence).
  all: try (exfalso; bool_facts;
            match goal with
            | H : forall sc, Some ?s = Some sc -> validating sc = true |- _ =>
                specialize (H s eq_refl)
            end; congruence).
  all: finish_inv.
Qed.

Lemma reachable_Inv w : reachable w -> Inv w.
Proof.
  induction 1 as [|w ev w' calls _ IH Hstep];
    [apply Inv_initial | exact (Inv_step w ev w' calls IH Hstep)].
Qed.

Lemma steps_reachable w evs w' :
  reachable w -> steps w evs = Some w' -> reachable w'.
Proof.
  revert w. induction evs as [|ev evs IH]; intros w Hw; cbn [steps].
  - intros H; injection H as <-; exact Hw.
  - destruct (step w ev) as [[w1 calls]|] eqn:E; [|discriminate].
    apply IH. exact (reachable_step w ev w1 calls Hw E).
Qed.

Lemma after_reachable evs w :
  steps initialWorld evs = Some w -> reachable (after evs).
Proof.
  intros H. unfold after. rewrite H.
  exact (steps_reachable initialWorld evs w reachable_initial H).
Qed.


(** C2, as amended: in every reachable world the current challenge is
    present when the status is PLAYING or VALIDATING (and the status is
    never VALIDATING); and no event takes a challenge that is present out
    of the state, so it is present in the other statuses too once a round
    has been played. *)
Theorem challenge_present_while_playing (w : World) :
  reachable w ->
  let g := gameState (app w) in
  (status g = PLAYING \/ status g = VALIDATING -> currentChallenge g <> None)
  /\ status g <> VALIDATING
  /\ forall ev w' calls,
      step w ev = Some (w', calls) ->
      currentChallenge g <> None ->
      currentChallenge (gameState (app w')) <> None.
Proof.
  intros Hr. pose proof (reachable_Inv w Hr) as HI. cbv zeta.
  split; [|split].
  - intros [H|H]; [exact (inv_challenge w HI H)|].
    now contradiction (inv_not_validating w HI).
  - exact (inv_not_validating w HI).
  - intros ev w' calls Hstep Hch. clear HI Hr. split_world w. cbn in *.
    destruct ch as [c|]; [clear Hch | congruence].
    destruct ev;
      open_handlers;
      cbn in Hstep;
      repeat match type of Hstep with
             | context [match ?x with _ => _ end] => destruct x
             end;
      cbn in Hstep; try discriminate;
      injection Hstep as <- <-; cbn;
      repeat match goal with
             | |- context [match ?x with _ => _ end] => destruct x
             end;
      cbn; discriminate.
Qed.













Lemma requests_app tr1 tr2 : requests (tr1 ++ tr2) = requests tr1 ++ requests tr2.
Proof.
  induction tr1 as [|ev tr1 IH]; [reflexivity|].
  destruct ev; cbn; now rewrite IH.
Qed.

Lemma generateWithFallback_requests JSON_parse env t prompt schema temp :
  exists rest,
    requests (fst (run env t (generateWithFallback JSON_parse prompt schema temp)))
    = mkRequest PRIMARY_MODEL prompt (lit "application/json") schema temp :: rest
    /\ forall rq, In rq rest -> contents rq = prompt.
Proof.
  pose proof (run_generateWithFallback JSON_parse env t prompt schema temp) as H.
  cbv zeta in H. rewrite H.
  repeat match goal with
         | |- context [attempt JSON_parse ?r] => destruct (attempt JSON_parse r)
         | |- context [isQuotaError ?e] => destruct (isQuotaError e)
         end; cbn; eexists; (split; [reflexivity|]); cbn;
    intros rq Hin; repeat destruct Hin as [<-|Hin]; try reflexivity;
    contradiction.
Qed.



(** The two events that advance the round do it with the exclusions and
    the difficulty of the current state. *)
Lemma advance_events (w : World) (ev : Input) (w' : World) (calls : list Call) :
  reachable w ->
  step w ev = Some (w', calls) ->
  forall bonus,
    (ev = ClickSkip /\ bonus = 0) \/ (exists i, ev = DelayElapsed i /\ bonus = 10) ->
    gameState (app w') = gameState (app (fst (advanceRound bonus w)))
    /\ calls = snd (advanceRound bonus w).
Proof.
  intros Hr Hstep bonus Hev. pose proof (reachable_Inv w Hr) as HI.
  destruct HI as [_ _ _ _ _ Hp]. unfold pendingOk in Hp. cbv zeta in Hp.
  unfold advanceRound, handleNextRound. cbn [fst snd]. rewrite render_app.
  destruct Hev as [[-> ->] | (i & -> & ->)]; unfold step in Hstep.
  - destruct (screen w) as [sc|]; [|discriminate].
    destruct (_ && _); [|discriminate].
    unfold handleSkip, handleNextRound in Hstep.
    injection Hstep as <- <-. split; [|reflexivity].
    unfold onScreen. rewrite render_app.
    destruct (screen (render _ _ _)) as [s|]; [|now rewrite render_app].
    destruct (Nat.eqb _ _); cbn; now rewrite ?render_app.
  - destruct (nth_error (tasks w) i) as [[| |? ?|inst props]|] eqn:Hnth;
      try discriminate.
    unfold delayElapsed, handleNextRound in Hstep.
    injection Hstep as <- <-. rewrite render_app.
    assert (Hprops : seenEntities props = seenEntities (gameState (app w))
                     /\ difficulty props = difficulty (gameState (app w))).
    { destruct (tasks w) as [|tk [|]]; [now destruct i| |].
      - destruct i as [|[|]]; cbn in Hnth; try discriminate.
        injection Hnth as ->. tauto.
      - destruct tk; contradiction. }
    destruct Hprops as [-> ->].
    unfold onScreen. cbn [screen app].
    destruct (screen w) as [s|]; [destruct (Nat.eqb _ _)|]; split; reflexivity.
Qed.

(** ** The statements at sample inputs *)

Lemma playingWorld_reachable : reachable playingWorld.
Proof.
  apply (after_reachable [ClickStart; Generated 0 (inr sampleChallenge)]
           playingWorld).
  reflexivity.
Qed.




(** C2 at the first round. *)
Lemma challenge_present_witness :
  reachable playingWorld
  /\ currentChallenge (gameState (app playingWorld)) <> None.
Proof.
  split; [exact playingWorld_reachable|].
  apply (challenge_present_while_playing playingWorld playingWorld_reachable).
  left. reflexivity.
Defined.

(** C3 fails as stated: the first pass takes the article off "الألماني"
    and leaves "الماني", which begins with the letters of the article; the
    second pass takes them off too. *)
Lemma normalizeArabic_not_idempotent :
  normalizeArabic lowerBasic almani = almani_once
  /\ normalizeArabic lowerBasic (normalizeArabic lowerBasic almani)
     = almani_twice
  /\ ~ (forall x,
         normalizeArabic lowerBasic (normalizeArabic lowerBasic x)
         = normalizeArabic lowerBasic x).
Proof.
  split; [reflexivity|]. split; [reflexivity|].
  intros H. specialize (H almani). discriminate H.
Qed.

(** C3, as amended, at "الأهلي". *)
Lemma normalizeArabic_idempotent_witness :
  trim (normalizeArabic lowerBasic alahly) = normalizeArabic lowerBasic alahly
  /\ lowerBasic (normalizeArabic lowerBasic alahly)
     = normalizeArabic lowerBasic alahly
  /\ startsWith (normalizeArabic lowerBasic alahly) AL = false
  /\ normalizeArabic lowerBasic (normalizeArabic lowerBasic alahly)
     = normalizeArabic lowerBasic alahly.
Proof.
  split; [reflexivity|]. split; [reflexivity|]. split; [reflexivity|].
  apply (normalizeArabic_idempotent_on_settled lowerBasic alahly);
    reflexivity.
Defined.

(** The trim comes before the article is taken off: a blank after the
    article is left in front by the first pass and trimmed by the second. *)
Example normalizeArabic_leaves_blank :
  normalizeArabic lowerBasic (AL ++ lit " x") = lit " x"
  /\ normalizeArabic lowerBasic (lit " x") = lit "x".
Proof. split; reflexivity. Qed.

(** C4 at "Ronaldinho", with "Ronaldo" and "Ronaldinho Gaúcho" accepted:
    the second accepted answer contains the answer of the player. *)
Lemma validateAnswer_local_match_witness :
  validateAnswer lowerBasic parseEmptyObject (lit "Barcelona") (lit "Milan")
    (lit "Ronaldinho")
    [lit "Ronaldo"; lit "Ronaldinho Ga" ++ [0xFA%N] ++ lit "cho"]
  = Ret (mkResult (VBool true) (VStr reason_correct) VUndefined).
Proof.
  apply (validateAnswer_local_match lowerBasic parseEmptyObject
           (lit "Barcelona") (lit "Milan") (lit "Ronaldinho")
           [lit "Ronaldo"; lit "Ronaldinho Ga" ++ [0xFA%N] ++ lit "cho"]).
  - discriminate.
  - exists (lit "Ronaldinho Ga" ++ [0xFA%N] ++ lit "cho").
    split; [right; left; reflexivity|].
    right. right. split.
    + exists [], (lit " ga" ++ [0xFA%N] ++ lit "cho"). reflexivity.
    + cbn. lia.
Defined.

(** C5 with no accepted answers and a backend that cannot be reached. *)
Lemma validateAnswer_absorbs_backend_failure_witness :
  snd (run envOffline 0
         (generateWithFallback parseEmptyObject
            (validationPrompt (lit "Barcelona") (lit "Milan") (lit "Pele"))
            validationSchema (2 # 10)))
  = Thrown networkError
  /\ snd (run envOffline 0
            (validateAnswer lowerBasic parseEmptyObject (lit "Barcelona")
               (lit "Milan") (lit "Pele") []))
     = Returned (mkResult (VBool false) (VStr reason_busy) VUndefined).
Proof.
  split; [reflexivity|].
  apply (proj2 (validateAnswer_absorbs_backend_failure lowerBasic
                  parseEmptyObject envOffline 0 (lit "Barcelona")
                  (lit "Milan") (lit "Pele") [])
           networkError);
    reflexivity.
Defined.


(** With both models rate-limited the client waits a second time before
    it throws the error of the fallback model. *)
Example generateWithFallback_exhausted :
  run envExhausted 0
    (generateWithFallback parseEmptyObject (lit "p") validationSchema (2 # 10))
  = ([EvGenerateContent
        (mkRequest PRIMARY_MODEL (lit "p") (lit "application/json")
           validationSchema (2 # 10))
        (Rejected quotaError);
      EvConsole; EvSleep 1000;
      EvGenerateContent
        (mkRequest FALLBACK_MODEL (lit "p") (lit "application/json")
           validationSchema (2 # 10))
        (Rejected quotaError);
      EvConsole; EvSleep 1000],
     Thrown quotaError).
Proof. reflexivity. Qed.





(** C2 fails as stated: after the first round is skipped the status is
    LOADING_CHALLENGE and the challenge of the first round is still the
    current one. *)
Lemma challenge_retained_after_skip :
  reachable skippedWorld
  /\ status (gameState (app skippedWorld)) = LOADING_CHALLENGE
  /\ currentChallenge (gameState (app skippedWorld)) = Some sampleChallenge
  /\ ~ (forall w,
         reachable w ->
         currentChallenge (gameState (app w)) <> None
         <-> (status (gameState (app w)) = PLAYING
              \/ status (gameState (app w)) = VALIDATING)).
Proof.
  assert (Hr : reachable skippedWorld).
  { apply (after_reachable
             [ClickStart; Generated 0 (inr sampleChallenge); ClickSkip]
             skippedWorld).
    reflexivity. }
  split; [exact Hr|]. split; [reflexivity|]. split; [reflexivity|].
  intros H. specialize (H skippedWorld Hr). destruct H as [H _].
  destruct H as [H|H]; [discriminate | discriminate H | discriminate H].
Qed.


(** ** More about the service module *)

(** X1: a run of [generateWithFallback] sends one request, to the primary
    model, or two, the second to the fallback model, with the same prompt,
    schema and temperature; every sleep of the run lasts 1000 ms and the
    run draws no random number and no identifier. *)
Theorem generateWithFallback_at_most_two_requests JSON_parse env t prompt
  schema temp :
  let rq m := mkRequest m prompt (lit "application/json") schema temp in
  let tr := fst (run env t (generateWithFallback JSON_parse prompt schema temp)) in
  (requests tr = [rq PRIMARY_MODEL]
   \/ requests tr = [rq PRIMARY_MODEL; rq FALLBACK_MODEL])
  /\ forall ev, In ev tr ->
       match ev with
       | EvSleep ms => ms = 1000
       | EvRandom _ _ | EvUUID _ => False
       | _ => True
       end.
Proof.
  cbv zeta.
  rewrite (run_generateWithFallback JSON_parse env t prompt schema temp).
  cbv zeta.
  repeat match goal with
         | |- context [attempt JSON_parse ?r] => destruct (attempt JSON_parse r)
         | |- context [isQuotaError ?e] => destruct (isQuotaError e)
         end; cbn; (split; [auto|]);
    intros ev Hin; repeat destruct Hin as [<-|Hin]; try exact I;
    try reflexivity; contradiction.
Qed.

(** X2: when the reply of the primary model parses, [generateWithFallback]
    returns the parsed value after that single call: without a log, a sleep
    or a request to the fallback model. *)
Theorem generateWithFallback_primary_answer JSON_parse env t prompt schema
  temp (v : JsVal) :
  let rq := mkRequest PRIMARY_MODEL prompt (lit "application/json") schema temp in
  attempt JSON_parse (backend env t rq) = inr v ->
  run env t (generateWithFallback JSON_parse prompt schema temp)
  = ([EvGenerateContent rq (backend env t rq)], Returned v).
Proof.
  cbv zeta. intros H.
  rewrite (run_generateWithFallback JSON_parse env t prompt schema temp).
  cbv zeta. now rewrite H.
Qed.

(** The events of a run of [generateWithFallback]: calls of the backend,
    logs and sleeps of 1000 ms. *)
Lemma generateWithFallback_events JSON_parse env t prompt schema temp ev :
  In ev (fst (run env t (generateWithFallback JSON_parse prompt schema temp))) ->
  match ev with
  | EvSleep ms => ms = 1000
  | EvRandom _ _ | EvUUID _ => False
  | _ => True
  end.
Proof.
  rewrite (run_generateWithFallback JSON_parse env t prompt schema temp).
  cbv zeta.
  repeat match goal with
         | |- context [attempt JSON_parse ?r] => destruct (attempt JSON_parse r)
         | |- context [isQuotaError ?e] => destruct (isQuotaError e)
         end; cbn;
    intros Hin; repeat destruct Hin as [<-|Hin]; try exact I;
    try reflexivity; contradiction.
Qed.

(** X3: [generateChallenge] does not catch: an error thrown by
    [generateWithFallback] is thrown by [generateChallenge] as it is, and
    no identifier has been drawn. *)
Theorem generateChallenge_propagates_failure JSON_parse env t d
  excludeEntities (e : JsError) :
  snd (run env (S (S t))
         (generateWithFallback JSON_parse (drawnPrompt env t d excludeEntities)
            challengeSchema (11 # 10)))
  = Thrown e ->
  snd (run env t (generateChallenge JSON_parse d excludeEntities)) = Thrown e
  /\ forall u, ~ In (EvUUID u)
                 (fst (run env t (generateChallenge JSON_parse d excludeEntities))).
Proof.
  intros H. unfold generateChallenge. cbn [run].
  fold (drawnPrompt env t d excludeEntities).
  rewrite run_bind.
  pose proof (generateWithFallback_events JSON_parse env (S (S t))
                (drawnPrompt env t d excludeEntities) challengeSchema (11 # 10))
    as Hev.
  destruct (run env (S (S t)) (generateWithFallback _ _ _ _)) as [tr o].
  cbn [snd fst] in *. subst o. cbn [snd fst]. split; [reflexivity|].
  intros u [Hu|[Hu|Hu]]; try discriminate. exact (Hev _ Hu).
Qed.

Lemma all_strings_map (l : list jsstring) :
  all_strings (List.map VStr l) = Some l.
Proof.
  induction l as [|s l IH]; [reflexivity|]. cbn. now rewrite IH.
Qed.

Lemma lookup_enum_value (t : EntityType) :
  lookup_enum (EntityType_value t) EntityType_values = Some t.
Proof. destruct t; vm_compute; reflexivity. Qed.

Lemma optional_round_trip (key : jsstring) (v : option jsstring)
  (rest : list (jsstring * JsVal)) :
  assoc key rest = VUndefined ->
  as_optional_string (assoc key (optionalField key v ++ rest)) = Ret v.
Proof.
  intros H. destruct v as [s|]; cbn [optionalField List.app assoc].
  - now rewrite eqb_refl.
  - now rewrite H.
Qed.

Lemma readEntity_entityValue (data : JsVal) (card : jsstring) (e : GameEntity) :
  get data card = inr (entityValue e) ->
  readEntity data card = Ret (withoutDescription e).
Proof.
  intros H. unfold readEntity. rewrite H. cbn [lift bind].
  destruct e as [n ty de im co]. unfold entityValue, withoutDescription.
  cbn [name type imageUrl color].
  change (get (VObj ?f) ?k) with (inr (A := JsError) (assoc k f)).
  cbn [lift bind].
  replace (assoc (lit "name") _) with (VStr n) by reflexivity.
  replace (assoc (lit "type") _) with (VStr (EntityType_value ty))
    by reflexivity.
  replace (assoc (lit "imageUrl") _) with
    (assoc (lit "imageUrl")
       (optionalField (lit "imageUrl") im ++ optionalField (lit "color") co))
    by reflexivity.
  replace (assoc (lit "color") _) with
    (assoc (lit "color") (optionalField (lit "color") co ++ []))
    by (rewrite app_nil_r; destruct im; reflexivity).
  cbn [as_string bind]. unfold as_EntityType.
  rewrite lookup_enum_value. cbn [bind].
  rewrite (optional_round_trip (lit "imageUrl") im);
    [|destruct co; reflexivity].
  cbn [bind]. rewrite (optional_round_trip (lit "color") co) by reflexivity.
  reflexivity.
Qed.

(** X4: when the backend sends the object of a challenge, with the
    names, types, optional image addresses and colours of two entities and
    a list of solutions, [generateChallenge] returns that challenge: the
    same entities, without description, the solutions as
    [possibleAnswers], and as [id] an identifier it has drawn. *)
Theorem generateChallenge_decodes_challenge JSON_parse env t d excludeEntities
  (a b : GameEntity) (solutions : list jsstring) :
  snd (run env (S (S t))
         (generateWithFallback JSON_parse (drawnPrompt env t d excludeEntities)
            challengeSchema (11 # 10)))
  = Returned (challengeValue a b solutions) ->
  exists u,
    In (EvUUID u)
      (fst (run env t (generateChallenge JSON_parse d excludeEntities)))
    /\ snd (run env t (generateChallenge JSON_parse d excludeEntities))
       = Returned
           (mkChallenge u (withoutDescription a) (withoutDescription b)
              (Some solutions)).
Proof.
  intros H. unfold generateChallenge. cbn [run].
  fold (drawnPrompt env t d excludeEntities).
  rewrite run_bind.
  destruct (run env (S (S t)) (generateWithFallback _ _ _ _)) as [tr o].
  cbn [snd] in H. subst o. cbn [run].
  rewrite (readEntity_entityValue _ (lit "cardA") a) by reflexivity.
  rewrite (readEntity_entityValue _ (lit "cardB") b) by reflexivity.
  cbn [bind].
  replace (get (challengeValue a b solutions) (lit "possibleSolutions"))
    with (inr (A := JsError) (VArr (List.map VStr solutions))) by reflexivity.
  cbn [lift bind as_optional_strings]. rewrite all_strings_map.
  cbn [run snd fst]. eexists. split; [|reflexivity].
  right. right. apply in_or_app. right. left. reflexivity.
Qed.

(** X5: when the value of the backend is [undefined] or [null],
    [generateChallenge] throws the TypeError of reading [cardA]; when the
    value has no [cardA], or a [null] one, it throws the TypeError of
    reading [name]. *)
Theorem generateChallenge_missing_card JSON_parse env t d excludeEntities
  (data : JsVal) :
  snd (run env (S (S t))
         (generateWithFallback JSON_parse (drawnPrompt env t d excludeEntities)
            challengeSchema (11 # 10)))
  = Returned data ->
  (data = VUndefined \/ data = VNull ->
   snd (run env t (generateChallenge JSON_parse d excludeEntities))
   = Thrown (TypeError (lit "cardA")))
  /\ (get data (lit "cardA") = inr VUndefined
      \/ get data (lit "cardA") = inr VNull ->
      snd (run env t (generateChallenge JSON_parse d excludeEntities))
      = Thrown (TypeError (lit "name"))).
Proof.
  intros H. unfold generateChallenge. cbn [run].
  fold (drawnPrompt env t d excludeEntities).
  rewrite run_bind.
  destruct (run env (S (S t)) (generateWithFallback _ _ _ _)) as [tr o].
  cbn [snd] in H. subst o. cbn [run]. unfold readEntity. split.
  - intros [-> | ->]; reflexivity.
  - intros [Hc | Hc]; rewrite Hc; reflexivity.
Qed.

(** ** More about the validation client *)

Lemma localMatch_rule toLowerCase (input ans : jsstring) :
  localMatch toLowerCase input ans = true
  <-> matchRule input (normalizeArabic toLowerCase ans).
Proof.
  unfold localMatch, matchRule.
  rewrite !orb_true_iff, !andb_true_iff, eqb_eq, !includes_spec, !Nat.ltb_lt.
  split.
  - intros [[H | [H1 H2]] | [H1 H2]]; auto.
  - intros [H | [[H1 H2] | [H1 H2]]]; auto.
Qed.

Lemma local_tier_silent toLowerCase (userAnswer : jsstring)
  (possibleAnswers : list jsstring) :
  (forall ans, In ans possibleAnswers ->
     ~ matchRule (normalizeArabic toLowerCase userAnswer)
         (normalizeArabic toLowerCase ans)) ->
  (0 <? length possibleAnswers)%nat
  && existsb (localMatch toLowerCase (normalizeArabic toLowerCase userAnswer))
       possibleAnswers = false.
Proof.
  intros H. apply andb_false_iff. right.
  destruct (existsb _ possibleAnswers) eqn:E; [|reflexivity].
  apply existsb_exists in E. destruct E as (ans & Hin & Hm).
  apply localMatch_rule in Hm. now contradiction (H ans Hin).
Qed.

(** X6: when no accepted answer passes the rule of the local tier, and so
    when there is none, [validateAnswer] asks the backend: its first
    request goes to the primary model with the validation schema,
    temperature 0.2 and the prompt made of the two names and the answer as
    typed, and a later request carries the same prompt. *)
Theorem validateAnswer_asks_backend toLowerCase JSON_parse env t
  (cardA cardB userAnswer : jsstring) (possibleAnswers : list jsstring) :
  (forall ans, In ans possibleAnswers ->
     ~ matchRule (normalizeArabic toLowerCase userAnswer)
         (normalizeArabic toLowerCase ans)) ->
  exists rest,
    requests
      (fst (run env t
              (validateAnswer toLowerCase JSON_parse cardA cardB userAnswer
                 possibleAnswers)))
    = mkRequest PRIMARY_MODEL (validationPrompt cardA cardB userAnswer)
        (lit "application/json") validationSchema (2 # 10) :: rest
    /\ forall rq, In rq rest ->
         contents rq = validationPrompt cardA cardB userAnswer.
Proof.
  intros Hno. pose proof (local_tier_silent toLowerCase userAnswer
                            possibleAnswers Hno) as Hlocal.
  destruct (generateWithFallback_requests JSON_parse env t
              (validationPrompt cardA cardB userAnswer) validationSchema
              (2 # 10)) as (rest & Hreq & Hrest).
  exists rest. split; [|exact Hrest].
  unfold validateAnswer. cbv zeta.
  set (remote := try_catch _ _).
  assert (Hremote :
    requests (fst (run env t remote))
    = mkRequest PRIMARY_MODEL (validationPrompt cardA cardB userAnswer)
        (lit "application/json") validationSchema (2 # 10) :: rest).
  { unfold remote. rewrite run_try_catch, run_bind.
    destruct (run env t (generateWithFallback _ _ _ _)) as [tr [data|e|]];
      cbn [fst] in Hreq.
    - destruct data; cbn [get lift bind run fst snd];
        rewrite ?requests_app; cbn [requests]; rewrite ?app_nil_r;
        exact Hreq.
    - cbn [run fst snd]. rewrite requests_app. cbn [requests].
      rewrite app_nil_r. exact Hreq.
    - exact Hreq. }
  destruct (0 <? length possibleAnswers)%nat; [|exact Hremote].
  cbn [andb] in Hlocal. rewrite Hlocal. exact Hremote.
Qed.

(** X7: when no accepted answer passes the rule of the local tier and the
    backend sends a value, [validateAnswer] returns the [isValid], [reason]
    and [correctAnswer] of an object as they are, three undefined fields
    for any other value but [undefined] and [null], and the "service busy"
    result for these two. *)
Theorem validateAnswer_remote_verdict toLowerCase JSON_parse env t
  (cardA cardB userAnswer : jsstring) (possibleAnswers : list jsstring)
  (data : JsVal) :
  (forall ans, In ans possibleAnswers ->
     ~ matchRule (normalizeArabic toLowerCase userAnswer)
         (normalizeArabic toLowerCase ans)) ->
  snd (run env t
         (generateWithFallback JSON_parse
            (validationPrompt cardA cardB userAnswer) validationSchema
            (2 # 10)))
  = Returned data ->
  snd (run env t
         (validateAnswer toLowerCase JSON_parse cardA cardB userAnswer
            possibleAnswers))
  = match data with
    | VUndefined | VNull =>
        Returned (mkResult (VBool false) (VStr reason_busy) VUndefined)
    | VObj fields =>
        Returned
          (mkResult (assoc (lit "isValid") fields) (assoc (lit "reason") fields)
             (assoc (lit "correctAnswer") fields))
    | _ => Returned (mkResult VUndefined VUndefined VUndefined)
    end.
Proof.
  intros Hno Hdata.
  pose proof (local_tier_silent toLowerCase userAnswer possibleAnswers Hno)
    as Hlocal.
  unfold validateAnswer. cbv zeta.
  set (remote := try_catch _ _).
  assert (Hremote :
    snd (run env t remote)
    = match data with
      | VUndefined | VNull =>
          Returned (mkResult (VBool false) (VStr reason_busy) VUndefined)
      | VObj fields =>
          Returned
            (mkResult (assoc (lit "isValid") fields)
               (assoc (lit "reason") fields)
               (assoc (lit "correctAnswer") fields))
      | _ => Returned (mkResult VUndefined VUndefined VUndefined)
      end).
  { unfold remote. rewrite run_try_catch, run_bind.
    destruct (run env t (generateWithFallback _ _ _ _)) as [tr o].
    cbn [snd] in Hdata. subst o. destruct data; reflexivity. }
  destruct (0 <? length possibleAnswers)%nat; [|exact Hremote].
  cbn [andb] in Hlocal. rewrite Hlocal. exact Hremote.
Qed.

(** X8: the normaliser leaves none of the letters it unifies and none of
    the marks it strips: no alef with hamza or madda, no teh marbuta, no
    alef maksura, no mark from U+064B to U+065F. *)
Theorem normalizeArabic_leaves_no_variant toLowerCase (x : jsstring)
  (c : code_unit) :
  In c (normalizeArabic toLowerCase x) ->
  isAlefVariant c = false /\ isTehMarbuta c = false
  /\ isAlefMaksura c = false /\ isTashkeel c = false.
Proof.
  intros Hin.
  pose proof (normalizeArabic_plain toLowerCase x) as Hplain.
  rewrite Forall_forall in Hplain. specialize (Hplain c Hin).
  unfold plain in Hplain. rewrite negb_true_iff, !orb_false_iff in Hplain.
  tauto.
Qed.

Lemma contains_length (s p : jsstring) :
  contains s p -> (length p <= length s)%nat.
Proof.
  intros (b & a & ->). rewrite !length_app. lia.
Qed.

(** X9: an answer of the player that normalises to at most 3 code units
    passes the local tier on an accepted answer only when the two
    normalise to the same string. *)
Theorem short_answers_match_by_equality toLowerCase (userAnswer ans : jsstring) :
  (length (normalizeArabic toLowerCase userAnswer) <= 3)%nat ->
  localMatch toLowerCase (normalizeArabic toLowerCase userAnswer) ans = true ->
  normalizeArabic toLowerCase ans = normalizeArabic toLowerCase userAnswer.
Proof.
  intros Hshort Hm. apply localMatch_rule in Hm.
  destruct Hm as [H | [[Hc Hl] | [Hc Hl]]].
  - now symmetry.
  - apply contains_length in Hc. lia.
  - lia.
Qed.

(** ** More about the session *)

#[local] Arguments Z.add : simpl never.
#[local] Arguments Z.mul : simpl never.
#[local] Arguments Z.sub : simpl never.

Lemma Inv2_initial : Inv2 initialWorld.
Proof.
  constructor; cbn; try lia; try (split; [reflexivity | discriminate]);
    discriminate.
Qed.

Ltac finish_inv2 :=
  bool_facts;
  constructor; cbn in *;
  repeat match goal with
         | |- context [if ?c then _ else _] => destruct c eqn:?; cbn in *
         | |- context [match ?d with EASY => _ | _ => _ end] =>
             destruct d; cbn in *
         end;
  bool_facts;
  try lia; try congruence;
  try (intuition (try congruence; try lia); fail);
  try (repeat split; try congruence; try lia; try tauto;
       intros ? Heq; injection Heq as <-; cbn; auto; fail);
  try (intros _; eexists; reflexivity);
  try (intros _; exists []; reflexivity).

Lemma Inv2_step w ev w' calls :
  Inv w -> Inv2 w -> step w ev = Some (w', calls) -> Inv2 w'.
Proof.
  intros [H1 H2 H3 H4 H5 H6] [K1 K2 K3 K4] Hstep. split_world w. cbn in *.
  unfold awaited, shownAreSeen in *. cbn in K3, K4.
  known_tasks H6 tk.
  all: destruct ev.
  all: open_handlers; unfold TIME_LIMITS in *.
  all: cbn in Hstep.
  all: destruct st; cbn in Hstep; try discriminate.
  all: destruct ch as [c|]; destruct sc as [s|]; cbn in *.
  all: try (destruct H5 as [H5a H5b];
            first [ discriminate (H5a eq_refl) | discriminate (H5b eq_refl) ]).
  all: try (exfalso; apply H3; reflexivity).
  all: step_cases Hstep.
  all: injection Hstep as <- <-.
  all: try (exfalso; bool_facts; congruence).
  all: try (exfalso; bool_facts;
            match goal with
            | H : forall sc, Some ?s = Some sc -> validating sc = true |- _ =>
                specialize (H s eq_refl)
            end; congruence).
  all: finish_inv2.
Qed.

Lemma reachable_Inv2 w : reachable w -> Inv2 w.
Proof.
  induction 1 as [|w ev w' calls Hr IH Hstep]; [apply Inv2_initial|].
  exact (Inv2_step w ev w' calls (reachable_Inv w Hr) IH Hstep).
Qed.



(** X12: in every reachable world the score and the time left are not
    negative, and the time left is at most 90 seconds and 10 more for every
    point. *)
Theorem score_and_time_bounds (w : World) :
  reachable w ->
  0 <= score (gameState (app w))
  /\ 0 <= timeLeft (gameState (app w))
  /\ timeLeft (gameState (app w)) <= 90 + 10 * score (gameState (app w)).
Proof.
  intros Hr. pose proof (reachable_Inv w Hr) as HI.
  pose proof (reachable_Inv2 w Hr) as HI2.
  repeat split;
    [exact (inv_score w HI2) | exact (inv_time_nonneg w HI)
    | exact (inv_time_bound w HI2)].
Qed.

(** X13: an event changes the score in two ways only: a start sets it to
    0 and the success timer of a correct answer adds 1; every other event,
    a skip too, keeps it. *)
Theorem score_changes (w : World) (ev : Input) (w' : World)
  (calls : list Call) :
  step w ev = Some (w', calls) ->
  (ev = ClickStart /\ score (gameState (app w')) = 0)
  \/ ((exists i, ev = DelayElapsed i)
      /\ score (gameState (app w')) = score (gameState (app w)) + 1)
  \/ (ev <> ClickStart /\ (forall i, ev <> DelayElapsed i)
      /\ score (gameState (app w')) = score (gameState (app w))).
Proof.
  intros Hstep. split_world w.
  destruct ev; open_handlers; cbn in Hstep;
    repeat match type of Hstep with
           | context [match ?x with _ => _ end] => destruct x
           end;
    cbn in Hstep; try discriminate;
    injection Hstep as <- <-; cbn;
    repeat match goal with
           | |- context [match ?x with _ => _ end] => destruct x
           end;
    cbn;
    first [ left; split; reflexivity
          | right; left; split; [eexists; reflexivity | reflexivity]
          | right; right; repeat split; try discriminate; reflexivity ].
Qed.

(** X14: the high score changes on the return to the menu only, where it
    becomes the larger of itself and the score; no other event, playing
    again from the game-over screen included, touches it. *)
Theorem high_score_changes_on_menu_only (w : World) (ev : Input) (w' : World)
  (calls : list Call) :
  step w ev = Some (w', calls) ->
  (ev = ClickMenu
   /\ highScore (app w')
      = Z.max (highScore (app w)) (score (gameState (app w))))
  \/ (ev <> ClickMenu /\ highScore (app w') = highScore (app w)).
Proof.
  intros Hstep.
  destruct (Z.max_spec (highScore (app w)) (score (gameState (app w))))
    as [[Hlt Hmax] | [Hge Hmax]]; rewrite Hmax; clear Hmax;
    split_world w; cbn [highScore app gameState score] in *;
    destruct ev; open_handlers; cbn in Hstep;
    repeat match type of Hstep with
           | context [match ?x with _ => _ end] => destruct x eqn:?
           end;
    cbn in Hstep; try discriminate;
    injection Hstep as <- <-; cbn;
    repeat match goal with
           | |- context [match ?x with _ => _ end] => destruct x eqn:?
           end;
    cbn;
    try (right; split; [discriminate | reflexivity]);
    left; (split; [reflexivity|]); bool_facts; lia.
Qed.







(** ** The card *)

(** X20: a card always has an image to show: the address of the entity
    when it has one and the image has not failed, the fallback image of the
    type of the entity otherwise, never an empty address; the loading
    shimmer is shown exactly while the image is transparent. *)
Theorem card_always_has_an_image (entity : GameEntity) (st : Card.State) :
  Card.effectiveImageSrc entity st <> []
  /\ (Card.isFallback entity st = true ->
      Card.effectiveImageSrc entity st = Card.FALLBACK_IMAGES (type entity))
  /\ (Card.isFallback entity st = false ->
      imageUrl entity = Some (Card.effectiveImageSrc entity st))
  /\ Card.showsShimmer entity st = negb (Card.imageVisible entity st).
Proof.
  unfold Card.effectiveImageSrc, Card.isFallback, Card.showsShimmer,
    Card.imageVisible, Card.typeFallbackSrc, Card.present.
  destruct st as [err loaded]. cbn [Card.imageError Card.imageLoaded].
  assert (Hfb : forall t, Card.orElse (Some (Card.FALLBACK_IMAGES t))
                            (Card.FALLBACK_IMAGES TEAM)
                          = Card.FALLBACK_IMAGES t)
    by (intros t; destruct t; vm_compute; reflexivity).
  rewrite Hfb.
  assert (Hne : Card.FALLBACK_IMAGES (type entity) <> [])
    by (destruct (type entity); vm_compute; discriminate).
  destruct (imageUrl entity) as [[|c url]|], err, loaded; cbn;
    repeat split; try discriminate; try reflexivity; try exact Hne.
Qed.

Lemma card_error_sticks (entity : GameEntity) (st : Card.State)
  (evs : list Card.Event) :
  Card.imageError st = true ->
  forallb Card.isImageEvent evs = true ->
  fst (Card.steps entity st evs) = entity
  /\ Card.imageError (snd (Card.steps entity st evs)) = true.
Proof.
  revert st. induction evs as [|ev evs IH]; intros st Herr Hall.
  - now split.
  - cbn in Hall. apply andb_true_iff in Hall. destruct Hall as [Hev Hall].
    destruct ev; try discriminate; cbn [Card.steps Card.step];
      apply IH; auto.
Qed.

(** X21: once the image of a card has failed, the card shows the
    fallback image of its type, without shimmer, whatever load and error
    events follow, as long as it is not rendered with another entity. *)
Theorem card_keeps_fallback_after_error (entity : GameEntity)
  (st : Card.State) (evs : list Card.Event) :
  forallb Card.isImageEvent evs = true ->
  let '(entity', st') :=
    Card.steps entity (snd (Card.step entity st Card.OnError)) evs in
  entity' = entity
  /\ Card.isFallback entity' st' = true
  /\ Card.effectiveImageSrc entity' st' = Card.FALLBACK_IMAGES (type entity)
  /\ Card.showsShimmer entity' st' = false.
Proof.
  intros Hall.
  destruct (card_error_sticks entity (snd (Card.step entity st Card.OnError))
              evs eq_refl Hall) as [He Herr].
  destruct (Card.steps entity _ evs) as [entity' st'].
  cbn [fst snd] in *. subst entity'. split; [reflexivity|].
  unfold Card.showsShimmer, Card.effectiveImageSrc.
  unfold Card.isFallback, Card.typeFallbackSrc.
  rewrite Herr. cbn [orb negb andb]. repeat split.
  - destruct (type entity); vm_compute; reflexivity.
  - apply andb_false_r.
Qed.

(** ** The further statements at sample inputs *)

(** X1 with both models rate-limited. *)
Lemma generateWithFallback_at_most_two_witness :
  requests
    (fst (run envExhausted 0
            (generateWithFallback parseEmptyObject (lit "p") validationSchema
               (2 # 10))))
  = [mkRequest PRIMARY_MODEL (lit "p") (lit "application/json")
       validationSchema (2 # 10);
     mkRequest FALLBACK_MODEL (lit "p") (lit "application/json")
       validationSchema (2 # 10)].
Proof.
  destruct (proj1 (generateWithFallback_at_most_two_requests parseEmptyObject
                     envExhausted 0 (lit "p") validationSchema (2 # 10)))
    as [H|H]; [discriminate H | exact H].
Defined.

(** X2 with a primary model that answers the text of an empty object:
    the text is parsed whole. *)
Lemma generateWithFallback_primary_answer_witness :
  attempt parseEmptyObject (Response (Some (lit "{}"))) = inr (VObj [])
  /\ snd (run envBraces 0
            (generateWithFallback parseEmptyObject (lit "p") validationSchema
               (2 # 10)))
     = Returned (VObj []).
Proof.
  split; [reflexivity|].
  rewrite (generateWithFallback_primary_answer parseEmptyObject envBraces 0
             (lit "p") validationSchema (2 # 10) (VObj []) eq_refl).
  reflexivity.
Defined.

(** X3 with a backend that cannot be reached. *)
Lemma generateChallenge_propagates_failure_witness :
  snd (run envOffline 0 (generateChallenge parseEmptyObject MEDIUM []))
  = Thrown networkError.
Proof.
  apply (generateChallenge_propagates_failure parseEmptyObject envOffline 0
           MEDIUM [] networkError).
  reflexivity.
Defined.

(** X4 with the challenge of Barcelona and Milan. *)
Lemma generateChallenge_decodes_witness :
  exists u,
    snd (run envSilent 0 (generateChallenge parseChallenge HARD []))
    = Returned (mkChallenge u barcelona milan (Some [lit "Ronaldinho"])).
Proof.
  destruct (generateChallenge_decodes_challenge parseChallenge envSilent 0
              HARD [] barcelona milan [lit "Ronaldinho"] eq_refl)
    as (u & _ & Hu).
  exists u. exact Hu.
Defined.

(** X5 with a backend that answers without text: the empty object has no
    [cardA]. *)
Lemma generateChallenge_missing_card_witness :
  get (VObj []) (lit "cardA") = inr VUndefined
  /\ snd (run envSilent 0 (generateChallenge parseEmptyObject EASY []))
     = Thrown (TypeError (lit "name")).
Proof.
  split; [reflexivity|].
  apply (proj2 (generateChallenge_missing_card parseEmptyObject envSilent 0
                  EASY [] (VObj []) eq_refl)).
  left. reflexivity.
Defined.

(** X6 without accepted answers. *)
Lemma validateAnswer_asks_backend_witness :
  exists rest,
    requests
      (fst (run envOffline 0
              (validateAnswer lowerBasic parseEmptyObject (lit "Barcelona")
                 (lit "Milan") (lit "Pele") [])))
    = mkRequest PRIMARY_MODEL
        (validationPrompt (lit "Barcelona") (lit "Milan") (lit "Pele"))
        (lit "application/json") validationSchema (2 # 10) :: rest.
Proof.
  destruct (validateAnswer_asks_backend lowerBasic parseEmptyObject envOffline
              0 (lit "Barcelona") (lit "Milan") (lit "Pele") [])
    as (rest & H & _).
  - intros ans [].
  - exists rest. exact H.
Defined.

(** X7 with a backend that answers an empty object. *)
Lemma validateAnswer_remote_verdict_witness :
  snd (run envBraces 0
         (validateAnswer lowerBasic parseEmptyObject (lit "Barcelona")
            (lit "Milan") (lit "Pele") []))
  = Returned (mkResult VUndefined VUndefined VUndefined).
Proof.
  rewrite (validateAnswer_remote_verdict lowerBasic parseEmptyObject envBraces
             0 (lit "Barcelona") (lit "Milan") (lit "Pele") [] (VObj [])).
  - reflexivity.
  - intros ans [].
  - reflexivity.
Defined.

(** X8 at the first letter of what is left of "الأهلي". *)
Lemma normalizeArabic_leaves_no_variant_witness :
  In ALEF (normalizeArabic lowerBasic alahly)
  /\ isAlefVariant ALEF = false.
Proof.
  split; [left; reflexivity|].
  apply (normalizeArabic_leaves_no_variant lowerBasic alahly ALEF).
  left. reflexivity.
Defined.

(** X9 at "Ali". *)
Lemma short_answers_witness :
  (length (normalizeArabic lowerBasic (lit "Ali")) <= 3)%nat
  /\ normalizeArabic lowerBasic (lit "ALI")
     = normalizeArabic lowerBasic (lit "Ali").
Proof.
  split; [cbn; lia|].
  apply (short_answers_match_by_equality lowerBasic (lit "Ali") (lit "ALI")).
  - cbn. lia.
  - reflexivity.
Defined.



(** X12 in the first round. *)
Lemma score_and_time_bounds_witness :
  reachable playingWorld
  /\ timeLeft (gameState (app playingWorld))
     <= 90 + 10 * score (gameState (app playingWorld)).
Proof.
  split; [exact playingWorld_reachable|].
  apply (score_and_time_bounds playingWorld playingWorld_reachable).
Defined.

(** X13 at a skip of the first round. *)
Lemma score_changes_witness :
  step playingWorld ClickSkip
  = Some (skippedWorld,
          [CallGenerateChallenge MEDIUM [lit "Barcelona"; lit "Milan"]])
  /\ score (gameState (app skippedWorld))
     = score (gameState (app playingWorld)).
Proof.
  split; [reflexivity|].
  destruct (score_changes playingWorld ClickSkip skippedWorld
              [CallGenerateChallenge MEDIUM [lit "Barcelona"; lit "Milan"]]
              eq_refl)
    as [[H _] | [[[i H] _] | (_ & _ & H)]];
    [discriminate H | discriminate H | exact H].
Defined.

(** X14 at the return to the menu after the first round. *)
Lemma overWorld_menu : step overWorld ClickMenu = Some (menuWorld, []).
Proof. vm_compute. reflexivity. Qed.

Lemma high_score_witness :
  step overWorld ClickMenu = Some (menuWorld, [])
  /\ highScore (app menuWorld)
     = Z.max (highScore (app overWorld)) (score (gameState (app overWorld))).
Proof.
  split; [exact overWorld_menu|].
  destruct (high_score_changes_on_menu_only overWorld ClickMenu menuWorld []
              overWorld_menu)
    as [[_ H] | [H _]]; [exact H | now contradiction H].
Defined.












(** X20 at an entity without image. *)
Lemma card_image_witness :
  Card.effectiveImageSrc (sampleEntity "Pele") Card.initialState
  = Card.FALLBACK_IMAGES PLAYER.
Proof.
  apply (card_always_has_an_image (sampleEntity "Pele") Card.initialState).
  reflexivity.
Defined.

(** X21 at a load, an error and a load after the first error. *)
Lemma card_keeps_fallback_witness :
  Card.effectiveImageSrc barcelona
    (snd (Card.steps barcelona
            (snd (Card.step barcelona Card.initialState Card.OnError))
            [Card.OnLoad; Card.OnError; Card.OnLoad]))
  = Card.FALLBACK_IMAGES TEAM.
Proof.
  exact (proj1 (proj2 (proj2
           (card_keeps_fallback_after_error barcelona Card.initialState
              [Card.OnLoad; Card.OnError; Card.OnLoad] eq_refl)))).
Defined.
